(** * mav2pcap: packetizing a binary MAVLink stream into a PCAP file

    A shallow embedding of [examples/mav2pcap.py], as Python 2 with the
    [future] package runs it (the attribute [pcap.None] of line 64 is a syntax
    error for Python 3, which cannot load the file).  The input is read
    from a file opened in binary mode: byte strings are lists of
    [Byte.byte] and one character of the data is a [byte].  The [chr] that
    line 20 imports from [builtins] is Python 2's [unichr]: it makes a
    unicode string, modelled by its code point.  Python integers are [Z];
    the exceptions that the script lets escape are values of [exn]; and the
    [while not done] loop of [convert_file] is its body iterated with fuel,
    of which one pass more than there are bytes is shown to be enough.

    The script prints to the console; the prints carry no state and are
    left out, except the figures of the closing one, which are the result
    of a run. *)

From Stdlib Require Import List ZArith Lia Bool Sorted Floats.
From Stdlib Require Import Init.Byte Strings.Byte.
Import ListNotations.
Open Scope Z_scope.

(** ** Python byte strings *)

Definition bytes := list byte.

(** [ord(c)] of a one-character byte string. *)
Definition ord (b : byte) : Z := Z.of_N (Byte.to_N b).

(** The byte string of one character with value [n], for [0 <= n < 256]:
    a byte of [struct.pack], and the seed byte that [accumulate] takes. *)
Definition chr (n : Z) : byte :=
  match Byte.of_N (Z.to_N n) with
  | Some b => b
  | None => x00
  end.

(** A unicode string of one character, by its code point. *)
Definition unicode : Type := Z.

(** [chr(n)] as the script has it: [builtins.chr], that is [unichr]. *)
Definition unichr (n : Z) : unicode := n.

(** [u != c] for a unicode string [u] and a byte string [c] of one character
    each.  Python 2 decodes [c] as ASCII and compares the code points; a
    byte above 0x7F cannot be decoded, and the two then compare unequal
    (with a [UnicodeWarning]). *)
Definition unicode_ne_str (u : unicode) (c : byte) : bool :=
  if ord c <? 128 then negb (u =? ord c) else true.

(** [len(s)] *)
Definition len {A} (s : list A) : Z := Z.of_nat (length s).

(** [s[lo:hi]] for non-negative [lo] and [hi]: Python clips a slice to the
    string, it never raises. *)
Definition slice {A} (s : list A) (lo hi : Z) : list A :=
  firstn (Z.to_nat hi - Z.to_nat lo) (skipn (Z.to_nat lo) s).

(** [s[:hi]] and [s[lo:]] *)
Definition slice_to {A} (s : list A) (hi : Z) : list A := firstn (Z.to_nat hi) s.
Definition slice_from {A} (s : list A) (lo : Z) : list A := skipn (Z.to_nat lo) s.

(** [s[n]] for non-negative [n]; [None] stands for [IndexError]. *)
Definition index {A} (s : list A) (n : Z) : option A :=
  if n <? 0 then None else nth_error s (Z.to_nat n).

(** [s.find(c)]: offset of the first occurrence of [c], or [-1]. *)
Fixpoint find (s : bytes) (c : byte) : Z :=
  match s with
  | [] => -1
  | b :: rest =>
      if Byte.eqb b c then 0
      else let r := find rest c in
           if r <? 0 then -1 else r + 1
  end.

(** ** Exceptions *)

Inductive exn : Type :=
| FieldError          (* construct: not enough bytes for a field *)
| ConstError          (* construct: a Const field has another value *)
| IndexError
| StructError         (* struct.error *)
| OverflowError
| ZeroDivisionError.

Inductive result (A : Type) : Type :=
| Ok (a : A)
| Raise (e : exn).
Arguments Ok {A} a.
Arguments Raise {A} e.

(** ** Module constants *)

Definition MAVLINK_MAGIC : Z := 0xfe.
Definition write_junk : bool := true.

Definition MAVLINK_MESSAGE_CRCS : list Z :=
  [ 50; 124; 137; 0; 237; 217; 104; 119; 0; 0; 0; 89; 0; 0; 0; 0;
    0; 0; 0; 0; 214; 159; 220; 168; 24; 23; 170; 144; 67; 115; 39; 246;
    185; 104; 237; 244; 242; 212; 9; 254; 230; 28; 28; 132; 221; 232; 11; 153;
    41; 39; 214; 223; 141; 33; 15; 3; 100; 24; 239; 238; 30; 240; 183; 130;
    130; 0; 148; 21; 0; 243; 124; 0; 0; 0; 20; 0; 152; 143; 0; 0;
    127; 106; 0; 0; 0; 0; 0; 0; 0; 231; 183; 63; 54; 0; 0; 0;
    0; 0; 0; 0; 175; 102; 158; 208; 56; 93; 0; 0; 0; 0; 235; 93;
    124; 0; 0; 0; 0; 0; 0; 0; 0; 0; 0; 0; 0; 0; 0; 0;
    0; 0; 0; 0; 0; 0; 0; 0; 0; 0; 0; 0; 0; 0; 0; 0;
    0; 0; 0; 42; 241; 15; 134; 219; 208; 188; 84; 22; 19; 21; 134; 0;
    78; 68; 189; 127; 111; 21; 21; 144; 1; 234; 73; 181; 22; 0; 0; 0;
    0; 0; 0; 0; 0; 0; 0; 0; 0; 0; 0; 0; 0; 0; 0; 0;
    0; 0; 0; 0; 0; 0; 0; 0; 0; 0; 0; 0; 0; 0; 0; 0;
    0; 0; 0; 0; 0; 0; 0; 0; 0; 0; 0; 0; 0; 0; 0; 0;
    0; 0; 0; 0; 0; 0; 0; 0; 0; 0; 0; 0; 0; 0; 0; 0;
    0; 0; 0; 0; 0; 0; 0; 0; 0; 204; 49; 170; 44; 83; 46; 0 ].

(** ** The checksum of [mavutil] *)

(** One bit of the reflected division by 0x1021 (0x8408 once reflected). *)
Definition crc_shift (crc : Z) : Z :=
  if Z.testbit crc 0
  then Z.lxor (Z.shiftr crc 1) 0x8408
  else Z.shiftr crc 1.

Definition crc_accumulate_byte (crc : Z) (b : byte) : Z :=
  Nat.iter 8 crc_shift (Z.lxor crc (ord b)).

(** Modelled from the spec: [mavutil.x25crc] is imported from [pymavlink]
    and is not part of the packetizer's file.  A running CRC-16/X.25,
    polynomial 0x1021 reflected, initial value 0xFFFF; [accumulate] folds
    further bytes into the running value [crc]. *)
Definition accumulate (crc : Z) (buf : bytes) : Z :=
  fold_left crc_accumulate_byte buf crc.

Definition x25crc (buf : bytes) : Z := accumulate 0xffff buf.

(** ** The two [construct] parsers used by the script *)

Record header : Type := mk_header {
  magic : Z;
  plength : Z;
  sequence : Z;
  sysid : Z;
  compid : Z;
  msgid : Z
}.

(** [Struct('header', Const(Byte('magic'), MAVLINK_MAGIC), Byte('plength'),
    ..., Byte('msgid')).parse(data[0:6])].  The fields are read in order: a
    field with no byte left raises [FieldError], and [Const] raises
    [ConstError] as soon as the first byte is read and is not the magic. *)
Definition parse_header (data : bytes) : result header :=
  match slice data 0 6 with
  | [] => Raise FieldError
  | m :: fields =>
      if ord m =? MAVLINK_MAGIC then
        match fields with
        | pl :: sq :: sy :: co :: ms :: _ =>
            Ok (mk_header (ord m) (ord pl) (ord sq) (ord sy) (ord co) (ord ms))
        | _ => Raise FieldError
        end
      else Raise ConstError
  end.

(** [ULInt16('crc').parse(s)]: two bytes, little endian; [FieldError] when
    [s] holds fewer than two bytes. *)
Definition ULInt16_parse (s : bytes) : result Z :=
  match s with
  | lo :: hi :: _ => Ok (ord lo + 256 * ord hi)
  | _ => Raise FieldError
  end.

Definition find_next_frame (data : bytes) : Z := find data xfe.

(** ** The capture file as the packets handed to [pcap.write] *)

(** A packet is [((tv_sec, tv_usec, length), datum)]. *)
Definition pcap_header : Type := (Z * Z * Z)%type.
Definition packet : Type := (pcap_header * bytes)%type.

(** [write_packet(number, data, flags, pkt_length)] appends one packet to the
    global [pcap_file]; the bytes that [pcap.write] makes of it are in
    module [pcap] below. *)
Definition write_packet (pcap_file : list packet)
    (number : Z) (data : bytes) (flags : Z) (pkt_length : Z) : list packet :=
  pcap_file ++ [((number, flags, pkt_length), data)].

(** ** [convert_file] *)

(** The local variables of [convert_file], and the packets written so far. *)
Record state : Type := mk_state {
  data : bytes;
  i : Z;
  done : bool;
  skipped_char : option byte;
  junk : bytes;
  cnt_ok : Z;
  cnt_junk : Z;
  cnt_crc : Z;
  pcap_file : list packet
}.

Definition init (mavlink_file : bytes) : state :=
  mk_state mavlink_file 0 false None [] 0 0 0 [].

Definition set_data (d : bytes) (s : state) : state :=
  mk_state d (i s) (done s) (skipped_char s) (junk s)
           (cnt_ok s) (cnt_junk s) (cnt_crc s) (pcap_file s).
Definition set_i (n : Z) (s : state) : state :=
  mk_state (data s) n (done s) (skipped_char s) (junk s)
           (cnt_ok s) (cnt_junk s) (cnt_crc s) (pcap_file s).
Definition set_done (b : bool) (s : state) : state :=
  mk_state (data s) (i s) b (skipped_char s) (junk s)
           (cnt_ok s) (cnt_junk s) (cnt_crc s) (pcap_file s).
Definition set_skipped_char (c : option byte) (s : state) : state :=
  mk_state (data s) (i s) (done s) c (junk s)
           (cnt_ok s) (cnt_junk s) (cnt_crc s) (pcap_file s).
Definition set_junk (j : bytes) (s : state) : state :=
  mk_state (data s) (i s) (done s) (skipped_char s) j
           (cnt_ok s) (cnt_junk s) (cnt_crc s) (pcap_file s).
Definition set_cnt_ok (n : Z) (s : state) : state :=
  mk_state (data s) (i s) (done s) (skipped_char s) (junk s)
           n (cnt_junk s) (cnt_crc s) (pcap_file s).
Definition set_cnt_junk (n : Z) (s : state) : state :=
  mk_state (data s) (i s) (done s) (skipped_char s) (junk s)
           (cnt_ok s) n (cnt_crc s) (pcap_file s).
Definition set_cnt_crc (n : Z) (s : state) : state :=
  mk_state (data s) (i s) (done s) (skipped_char s) (junk s)
           (cnt_ok s) (cnt_junk s) n (pcap_file s).
Definition set_pcap_file (f : list packet) (s : state) : state :=
  mk_state (data s) (i s) (done s) (skipped_char s) (junk s)
           (cnt_ok s) (cnt_junk s) (cnt_crc s) f.

(** What one pass through the loop body leaves: the state at the next test
    of [while not done], or an exception that no handler of the script
    catches, with the state it was raised in. *)
Inductive outcome : Type :=
| Next (s : state)
| Uncaught (e : exn) (s : state).

(** Lines 160-170: look for a potential start of frame and write the bytes
    before it as junk. *)
Definition skip_junk (s : state) : state :=
  let next_sof := find_next_frame (data s) in
  if next_sof >? 0 then
    let s :=
      if write_junk then
        let s :=
          match skipped_char s with
          | Some c =>
              set_skipped_char None
                (set_junk (c :: slice_to (data s) next_sof) s)
          | None => s
          end in
        set_pcap_file
          (write_packet (pcap_file s) (i s) (junk s) 0x03 (len (junk s))) s
      else s in
    set_cnt_junk (cnt_junk s + 1) (set_data (slice_from (data s) next_sof) s)
  else s.

(** Lines 172-216: take the data as a packet; the handler of [FieldError]
    around the checksum field and the handler of [IndexError] around the
    rest both set [done]. *)
Definition try_packet (s : state) : outcome :=
  match parse_header (data s) with
  | Raise e => Uncaught e s
  | Ok header =>
      let payload_len := plength header in
      let pkt_length := 6 + payload_len + 2 in
      match ULInt16_parse (slice (data s) (pkt_length - 2) pkt_length) with
      | Raise FieldError => Next (set_done true s)
      | Raise e => Uncaught e s
      | Ok pkt_crc =>
          match index MAVLINK_MESSAGE_CRCS (msgid header) with
          | None => Next (set_done true s)
          | Some seed =>
              let cc := x25crc (slice (data s) 1 (6 + payload_len)) in
              let x25_crc := accumulate cc [chr seed] in
              let crc_flag := if negb (x25_crc =? pkt_crc) then 0x1 else 0 in
              match index (data s) pkt_length with
              | None => Next (set_done true s)
              | Some next_magic =>
                  if unicode_ne_str (unichr MAVLINK_MAGIC) next_magic then
                    match index (data s) 0 with
                    | None => Next (set_done true s)
                    | Some c =>
                        Next (set_data (slice_from (data s) 1)
                                (set_skipped_char (Some c) s))
                    end
                  else
                    let pkt := slice_to (data s) pkt_length in
                    let s :=
                      set_pcap_file
                        (write_packet (pcap_file s) (i s) pkt crc_flag (len pkt))
                        s in
                    let s := set_data (slice_from (data s) pkt_length) s in
                    if negb (crc_flag =? 0)
                    then Next (set_cnt_crc (cnt_crc s + 1) s)
                    else Next (set_cnt_ok (cnt_ok s + 1) s)
              end
          end
      end
  end.

(** The body of [while not done]. *)
Definition loop_body (s : state) : outcome :=
  try_packet (skip_junk (set_i (i s + 1) s)).

(** How a run of the loop ends. *)
Inductive loop_end : Type :=
| Exhausted (s : state)            (* [done] is set *)
| Aborted (e : exn) (s : state)    (* an uncaught exception *)
| OutOfFuel (s : state).

Fixpoint while_not_done (fuel : nat) (s : state) : loop_end :=
  if done s then Exhausted s
  else match fuel with
       | O => OutOfFuel s
       | S fuel' =>
           match loop_body s with
           | Next s' => while_not_done fuel' s'
           | Uncaught e s' => Aborted e s'
           end
       end.

(** [float(n)] of a Python integer: the nearest double, ties to even;
    [OverflowError] when [n] is too large for a double. *)
Definition python_float (n : Z) : result float :=
  match binary_normalize prec emax n 0 false with
  | S754_infinity _ => Raise OverflowError
  | sf => Ok (SF2Prim sf)
  end.

(** The figures of the closing [print]. *)
Record RunStatistics : Type := mk_stats {
  valid_packets : Z;
  crc_errors : Z;
  junk_fragments : Z;
  junk_percent : float
}.

(** Line 217: [100.*float(cnt_junk+cnt_crc)/(cnt_junk+cnt_ok+cnt_crc)], in
    double precision; the division turns its right operand into a float
    and raises [ZeroDivisionError] when that is zero. *)
Definition statistics (s : state) : result RunStatistics :=
  match python_float (cnt_junk s + cnt_crc s) with
  | Raise e => Raise e
  | Ok part =>
      match python_float (cnt_junk s + cnt_ok s + cnt_crc s) with
      | Raise e => Raise e
      | Ok total =>
          if cnt_junk s + cnt_ok s + cnt_crc s =? 0
          then Raise ZeroDivisionError
          else Ok (mk_stats (cnt_ok s) (cnt_crc s) (cnt_junk s)
                     (PrimFloat.div (PrimFloat.mul 100%float part) total))
      end
  end.

(** How [convert_file] returns: normally, after the statistics, or by an
    exception; either way with the final state, whose [pcap_file] holds what
    was written. *)
Inductive run : Type :=
| Completed (stats : RunStatistics) (s : state)
| Crashed (e : exn) (s : state)
| Unfinished (s : state).

Definition convert_file_fuel (fuel : nat) (mavlink_file : bytes) : run :=
  match while_not_done fuel (init mavlink_file) with
  | Exhausted s =>
      match statistics s with
      | Ok stats => Completed stats s
      | Raise e => Crashed e s
      end
  | Aborted e s => Crashed e s
  | OutOfFuel s => Unfinished s
  end.

(** Every pass that goes on to another one shortens [data], so one pass more
    than there are bytes is always enough (lemma [while_not_done_fuel]). *)
Definition convert_file (mavlink_file : bytes) : run :=
  convert_file_fuel (S (length mavlink_file)) mavlink_file.

Definition final_state (r : run) : state :=
  match r with
  | Completed _ s => s
  | Crashed _ s => s
  | Unfinished s => s
  end.

(** ** A sample frame *)

(** Header [FE 02 00 01 01 00] (payload length 2, message id 0), payload
    [11 22] and the checksum of the seven bytes after the magic followed by
    the seed of message 0. *)
Definition sample_frame : bytes :=
  [xfe; x02; x00; x01; x01; x00; x11; x22; xd7; xa5].

(** Whether [f] is one frame, whole and with the right checksum: the length
    that its header declares is its length, and its last two bytes are the
    checksum of the bytes after the magic followed by the seed of its
    message id. *)
Definition well_formed_frame (f : bytes) : bool :=
  match parse_header f with
  | Ok h =>
      (len f =? 6 + plength h + 2) &&
      match ULInt16_parse (slice f (len f - 2) (len f)),
            index MAVLINK_MESSAGE_CRCS (msgid h) with
      | Ok stored, Some seed =>
          accumulate (x25crc (slice f 1 (len f - 2))) [chr seed] =? stored
      | _, _ => false
      end
  | Raise _ => false
  end.

(** The classification flag of a packet and its bytes. *)
Definition flags_of (p : packet) : Z := snd (fst (fst p)).
Definition number_of (p : packet) : Z := fst (fst (fst p)).
Definition length_of (p : packet) : Z := snd (fst p).
Definition datum_of (p : packet) : bytes := snd p.

(** Bytes written to the capture, over all packets. *)
Definition emitted_bytes (f : list packet) : Z :=
  fold_right (fun p n => len (datum_of p) + n) 0 f.

(** The carried-over byte, when one is pending, counts for one. *)
Definition pending_bytes (s : state) : Z :=
  match skipped_char s with
  | Some _ => 1
  | None => 0
  end.

(** The length a header declares for its packet. *)
Definition total_length (h : header) : Z := 6 + plength h + 2.


(** The state after the first byte of the data is put aside. *)
Definition resynced (s : state) (c : byte) : state :=
  mk_state (slice_from (data s) 1) (i s) (done s) (Some c) (junk s)
           (cnt_ok s) (cnt_junk s) (cnt_crc s) (pcap_file s).

(** The state a run of the loop ends in. *)
Definition end_state (r : loop_end) : state :=
  match r with
  | Exhausted s => s
  | Aborted _ s => s
  | OutOfFuel s => s
  end.

(** ** The [pcap] helper class: records of the capture file *)

Module pcap.

(** Byte order of a [struct] format: ['<'] or ['>'].  The ['='] of write
    mode is the machine's own order, one of the two, and the orders that
    read mode tries are these two. *)
Inductive endian : Type :=
| little
| big.

(** [struct.pack(endian + 'I', n)]: four bytes, [struct.error] when [n] is
    not in [0, 2**32). *)
Definition pack_I (e : endian) (n : Z) : result bytes :=
  if (0 <=? n) && (n <? 2 ^ 32) then
    let b0 := chr (n mod 256) in
    let b1 := chr ((n / 2 ^ 8) mod 256) in
    let b2 := chr ((n / 2 ^ 16) mod 256) in
    let b3 := chr ((n / 2 ^ 24) mod 256) in
    match e with
    | little => Ok [b0; b1; b2; b3]
    | big => Ok [b3; b2; b1; b0]
    end
  else Raise StructError.

(** [struct.pack(endian + 'IIII', a, b, c, d)] *)
Definition pack_IIII (e : endian) (a b c d : Z) : result bytes :=
  match pack_I e a, pack_I e b, pack_I e c, pack_I e d with
  | Ok sa, Ok sb, Ok sc, Ok sd => Ok (sa ++ sb ++ sc ++ sd)
  | _, _, _, _ => Raise StructError
  end.

Definition unpack_I (e : endian) (b0 b1 b2 b3 : byte) : Z :=
  match e with
  | little => ord b0 + 2 ^ 8 * ord b1 + 2 ^ 16 * ord b2 + 2 ^ 24 * ord b3
  | big => ord b3 + 2 ^ 8 * ord b2 + 2 ^ 16 * ord b1 + 2 ^ 24 * ord b0
  end.

(** [struct.unpack(endian + 'IIII', s)]: [struct.error] unless [s] holds
    exactly sixteen bytes. *)
Definition unpack_IIII (e : endian) (s : bytes) : result (Z * Z * Z * Z) :=
  match s with
  | [a0; a1; a2; a3; b0; b1; b2; b3; c0; c1; c2; c3; d0; d1; d2; d3] =>
      Ok (unpack_I e a0 a1 a2 a3, unpack_I e b0 b1 b2 b3,
          unpack_I e c0 c1 c2 c3, unpack_I e d0 d1 d2 d3)
  | _ => Raise StructError
  end.

(** The object once [__init__] has returned: the byte order it settled on
    and its stream, which is then positioned after the 24 bytes of the file
    header.  In write mode [stream] is what has been written after that
    header; in read mode it is what is left to read. *)
Record t : Type := mk {
  _endian : endian;
  stream : bytes
}.

(** [stream.read(n)]: up to [n] bytes, and the stream after them. *)
Definition stream_read (s : bytes) (n : Z) : bytes * bytes :=
  (slice_to s n, slice_from s n).

(** [read(self)]: [None] at the end of the stream, else
    [((tv_sec, tv_usec, length), datum)]. *)
Definition read (self : t) : result (option packet * t) :=
  let (hdr, rest) := stream_read (stream self) 16 in
  match hdr with
  | [] => Ok (None, mk (_endian self) rest)
  | _ =>
      match unpack_IIII (_endian self) hdr with
      | Raise e => Raise e
      | Ok (tv_sec, tv_usec, caplen, length) =>
          let (datum, rest) := stream_read rest caplen in
          Ok (Some ((tv_sec, tv_usec, length), datum), mk (_endian self) rest)
      end
  end.

(** [write(self, packet)] *)
Definition write (self : t) (packet : packet) : result t :=
  let (header, datum) := packet in
  let '(tv_sec, tv_usec, length) := header in
  match pack_IIII (_endian self) tv_sec tv_usec length (len datum) with
  | Raise e => Raise e
  | Ok hdr => Ok (mk (_endian self) ((stream self ++ hdr) ++ datum))
  end.

(** [__iter__(self)], a generator: the packets it yields, in order, from
    successive calls of [read], and how it ends, by returning at the first
    [None] ([None] here) or by the exception that [read] raises; [None] for
    the whole when [fuel] calls of [read] were not enough. *)
Fixpoint iter (fuel : nat) (self : t) : option (list packet * option exn) :=
  match fuel with
  | O => None
  | S fuel' =>
      match read self with
      | Raise e => Some ([], Some e)
      | Ok (None, _) => Some ([], None)
      | Ok (Some r, self') =>
          match iter fuel' self' with
          | Some (rs, ending) => Some (r :: rs, ending)
          | None => None
          end
      end
  end.

(** The packets of a list written one after the other. *)
Fixpoint write_all (self : t) (packets : list packet) : result t :=
  match packets with
  | [] => Ok self
  | p :: ps =>
      match write self p with
      | Raise e => Raise e
      | Ok self' => write_all self' ps
      end
  end.

(** The magic number of the file header. *)
Definition _MAGIC : Z := 0xA1B2C3D4.

(** [struct.pack(endian + 'H', n)]: two bytes, [struct.error] when [n] is
    not in [0, 2**16). *)
Definition pack_H (e : endian) (n : Z) : result bytes :=
  if (0 <=? n) && (n <? 2 ^ 16) then
    let b0 := chr (n mod 256) in
    let b1 := chr ((n / 2 ^ 8) mod 256) in
    match e with
    | little => Ok [b0; b1]
    | big => Ok [b1; b0]
    end
  else Raise StructError.

(** [struct.pack(endian + 'IHHIIII', ...)]: with the byte order given the
    fields follow each other without padding. *)
Definition pack_IHHIIII (e : endian) (a b c d f g h : Z) : result bytes :=
  match pack_I e a, pack_H e b, pack_H e c, pack_I e d,
        pack_I e f, pack_I e g, pack_I e h with
  | Ok sa, Ok sb, Ok sc, Ok sd, Ok sf, Ok sg, Ok sh =>
      Ok (sa ++ sb ++ sc ++ sd ++ sf ++ sg ++ sh)
  | _, _, _, _, _, _, _ => Raise StructError
  end.

(** Lines 79-92, the write mode of [__init__]: the file header that is
    written to the stream, in the machine's byte order [native]. *)
Definition write_mode_header (native : endian) (snaplen linktype : Z)
  : result bytes :=
  let magic := _MAGIC in
  let version_major := 2 in
  let version_minor := 4 in
  let thiszone := 0 in
  let sigfigs := 0 in
  pack_IHHIIII native magic version_major version_minor
               thiszone sigfigs snaplen linktype.

(** The byte order that [e] is not. *)
Definition other (e : endian) : endian :=
  match e with
  | little => big
  | big => little
  end.

End pcap.

(** A classified frame as [convert_file] hands it to [write_packet]: its
    sequence index, its bytes and its flag; the length passed along is
    always the length of the bytes. *)
Definition classified_frame : Type := (Z * bytes * Z)%type.

Definition write_frame (pcap_file : list packet) (f : classified_frame)
  : list packet :=
  let '(number, data, flags) := f in
  write_packet pcap_file number data flags (len data).

Definition write_frames (frames : list classified_frame) : list packet :=
  fold_left write_frame frames [].

(** The frames that the four 32-bit fields of a record can hold. *)
Definition fits_record (f : classified_frame) : Prop :=
  let '(number, data, flags) := f in
  0 <= number < 2 ^ 32 /\ 0 <= flags < 2 ^ 32 /\ len data < 2 ^ 32.

(** A packet whose fields fit the record and whose length field is the
    length of its bytes. *)
Definition fits_packet (p : packet) : Prop :=
  0 <= number_of p < 2 ^ 32 /\ 0 <= flags_of p < 2 ^ 32 /\
  length_of p = len (datum_of p) /\ len (datum_of p) < 2 ^ 32.


(** The sample frame at the head of the data, the magic of a next frame
    behind it, and the header of the sample frame. *)
Definition sample_state : state := init (sample_frame ++ [xfe]).
Definition sample_header : header := mk_header 0xfe 2 0 1 1 0.

(** A frame of the message id 255, for which the table holds no seed but
    0, with its checksum. *)
Definition unknown_id_frame : bytes :=
  [xfe; x02; x00; x01; x01; xff; x11; x22; x94; x72].
Definition unknown_id_state : state := init (unknown_id_frame ++ [xfe]).
Definition unknown_id_header : header := mk_header 0xfe 2 0 1 1 255.

(** The sample frame with a byte that is not the magic behind it. *)
Definition misframed_state : state := init (sample_frame ++ [x00]).

(** One byte that is not the magic in front of eight bytes that start with
    the magic and declare an empty payload. *)
Definition leading_junk_input : bytes :=
  [x00; xfe; x00; x00; x00; x00; x00; x00; x00].

(** Two bytes that are not the magic in front of the sample frame. *)
Definition junk_then_frame_input : bytes := [x00; x00] ++ sample_frame.

(** Eight bytes that start with the magic and declare an empty payload. *)
Definition lone_header_input : bytes :=
  [xfe; x00; x00; x00; x00; x00; x00; x00].

(** A junk fragment and the sample frame as classified frames, and the
    bytes of their two records in little-endian order. *)
Definition sample_frames : list classified_frame :=
  [(1, [x00; x00], 3); (1, sample_frame, 0)].

Definition sample_capture : bytes :=
  Eval cbv in
    match pcap.write_all (pcap.mk pcap.little []) (write_frames sample_frames)
    with
    | Ok w => pcap.stream w
    | Raise _ => []
    end.

(** The packets of a list that carry a given flag, counted. *)
Definition count_flag (flag : Z) (f : list packet) : Z :=
  len (filter (fun p => flags_of p =? flag) f).

(** What the bytes of a junk packet look like: none, or the magic and then
    bytes that are not the magic. *)
Definition junk_shape (d : bytes) : Prop :=
  d = [] \/ exists t, d = xfe :: t /\ ~ In xfe t.

(** A state of which no pass will write or lose a stale [junk]: [junk] is
    still empty, or a skipped character is pending, or the data has no
    bytes to skip. *)
Definition junk_fresh (s : state) : Prop :=
  junk s = [] \/ skipped_char s <> None \/ find_next_frame (data s) <= 0.

(** The state in the middle of a pass, after the search. *)
Definition searched (s : state) : state := skip_junk (set_i (i s + 1) s).

(** What the counters and the fields of the packets are, at every point of
    the loop. *)
Definition counted (s : state) : Prop :=
  cnt_junk s = count_flag 3 (pcap_file s) /\
  cnt_ok s = count_flag 0 (pcap_file s) /\
  cnt_crc s = count_flag 1 (pcap_file s) /\
  Forall (fun p => (flags_of p = 0 \/ flags_of p = 1 \/ flags_of p = 3) /\
                   length_of p = len (datum_of p)) (pcap_file s).

(** The sequence numbers of the packets, at every point of the loop. *)
Definition numbers_ok (s : state) : Prop :=
  0 <= i s /\
  Forall (fun p => 1 <= number_of p <= i s) (pcap_file s) /\
  StronglySorted Z.le (map number_of (pcap_file s)).

(** The passes made and the bytes left never exceed the bytes of the input
    by more than the one pass that ends the loop. *)
Definition paced (input : bytes) (s : state) : Prop :=
  0 <= i s /\
  (done s = false -> i s + len (data s) <= len input) /\
  i s + len (data s) <= len input + 1.

(** The bytes in the capture, the pending byte and the bytes left are never
    more than the input. *)
Definition accounted (input : bytes) (s : state) : Prop :=
  emitted_bytes (pcap_file s) + pending_bytes s + len (data s) <= len input /\
  junk_fresh s.

(** The junk kept and written, and the skipped character, at every point
    of the loop. *)
Definition junk_shaped (s : state) : Prop :=
  junk_shape (junk s) /\
  (skipped_char s = None \/ skipped_char s = Some xfe) /\
  Forall (fun p => flags_of p = 3 -> junk_shape (datum_of p)) (pcap_file s).

(** What [done] tells of the data: a header that parses and no byte after
    the packet it declares. *)
Definition stopped (s : state) : Prop :=
  done s = true ->
  exists h, parse_header (data s) = Ok h /\
            index (data s) (total_length h) = None.

(** Nothing but junk has been written. *)
Definition all_junk (s : state) : Prop :=
  Forall (fun p => flags_of p = 3) (pcap_file s) /\
  cnt_ok s = 0 /\ cnt_crc s = 0.

(** ** Bytes and byte strings *)

Lemma ord_range (b : byte) : 0 <= ord b < 256.
Proof.
  unfold ord. pose proof (Byte.to_N_bounded b). lia.
Qed.

Lemma ord_inj (a b : byte) : ord a = ord b -> a = b.
Proof.
  unfold ord. intros H. apply N2Z.inj in H.
  pose proof (Byte.of_to_N a) as Ha. rewrite H, Byte.of_to_N in Ha.
  congruence.
Qed.

Lemma ord_magic (b : byte) : (ord b =? MAVLINK_MAGIC) = true <-> b = xfe.
Proof.
  rewrite Z.eqb_eq. split.
  - intros H. apply ord_inj. exact H.
  - intros ->. reflexivity.
Qed.

Lemma chr_ord (b : byte) : chr (ord b) = b.
Proof.
  unfold chr, ord. rewrite N2Z.id, Byte.of_to_N. reflexivity.
Qed.

Lemma ord_chr (n : Z) : 0 <= n < 256 -> ord (chr n) = n.
Proof.
  intros Hn. unfold chr, ord.
  destruct (Byte.of_N (Z.to_N n)) as [b|] eqn:E.
  - apply Byte.to_of_N in E. rewrite E. lia.
  - apply Byte.of_N_None_iff in E. lia.
Qed.

Lemma len_nonneg {A} (s : list A) : 0 <= len s.
Proof. unfold len. lia. Qed.

Lemma len_cons {A} (a : A) (s : list A) : len (a :: s) = 1 + len s.
Proof. unfold len. simpl length. lia. Qed.

Lemma index_Some {A} (s : list A) (n : Z) (a : A) :
  index s n = Some a -> 0 <= n < len s.
Proof.
  unfold index, len. destruct (n <? 0) eqn:E; [discriminate|].
  intros H. apply Z.ltb_ge in E.
  assert (nth_error s (Z.to_nat n) <> None) as Hn by congruence.
  apply nth_error_Some in Hn. lia.
Qed.

Lemma slice_to_app {A} (s t : list A) (n : Z) :
  n = len s -> slice_to (s ++ t) n = s.
Proof.
  intros ->. unfold slice_to, len. rewrite Nat2Z.id, firstn_app, Nat.sub_diag.
  simpl. rewrite firstn_all, app_nil_r. reflexivity.
Qed.

Lemma slice_from_app {A} (s t : list A) (n : Z) :
  n = len s -> slice_from (s ++ t) n = t.
Proof.
  intros ->. unfold slice_from, len. rewrite Nat2Z.id, skipn_app, Nat.sub_diag.
  simpl. rewrite skipn_all. reflexivity.
Qed.


Lemma len_slice_to {A} (s : list A) (n : Z) :
  0 <= n <= len s -> len (slice_to s n) = n.
Proof.
  unfold len, slice_to. intros H. rewrite length_firstn. lia.
Qed.

Lemma len_slice_from {A} (s : list A) (n : Z) :
  0 <= n <= len s -> len (slice_from s n) = len s - n.
Proof.
  unfold len, slice_from. intros H. rewrite length_skipn. lia.
Qed.

(** ** [find] *)

Lemma find_range (s : bytes) (c : byte) :
  find s c = -1 \/ 0 <= find s c < len s.
Proof.
  unfold len. induction s as [|b rest IH]; simpl; [left; reflexivity|].
  destruct (Byte.eqb b c); [right; lia|].
  destruct (find rest c <? 0) eqn:E; [left; reflexivity|].
  apply Z.ltb_ge in E. right. lia.
Qed.

Lemma find_absent (s : bytes) (c : byte) :
  find s c = -1 <-> ~ In c s.
Proof.
  induction s as [|b rest IH]; simpl.
  - split; [intros _ []|reflexivity].
  - destruct (Byte.eqb b c) eqn:E.
    + apply Byte.byte_dec_bl in E. subst. split; [discriminate|].
      intros H. exfalso. apply H. left. reflexivity.
    + apply Byte.eqb_false in E.
      destruct (find_range rest c) as [Hr|Hr].
      * rewrite Hr. simpl. split; [|reflexivity].
        intros _ [H|H]; [contradiction|]. apply IH in Hr. contradiction.
      * destruct (find rest c <? 0) eqn:El; [apply Z.ltb_lt in El; lia|].
        split; [lia|]. intros H. exfalso.
        assert (find rest c = -1) by (apply IH; intros Hin; apply H; right; exact Hin).
        lia.
Qed.

(** The first occurrence splits the string. *)
Lemma find_app (pre rest : bytes) (c : byte) :
  ~ In c pre -> find (pre ++ c :: rest) c = len pre.
Proof.
  unfold len. induction pre as [|b pre IH]; simpl; intros H.
  - rewrite (Byte.byte_dec_lb (eq_refl c)). reflexivity.
  - destruct (Byte.eqb b c) eqn:E.
    + apply Byte.byte_dec_bl in E. subst. exfalso. apply H. left. reflexivity.
    + rewrite IH by (intros Hin; apply H; right; exact Hin).
      destruct (Z.of_nat (length pre) <? 0) eqn:El; [apply Z.ltb_lt in El; lia|].
      lia.
Qed.

Lemma slice_two {A} (s : list A) (n : Z) :
  0 <= n -> n + 2 <= len s ->
  exists a b,
    index s n = Some a /\ index s (n + 1) = Some b /\ slice s n (n + 2) = [a; b].
Proof.
  unfold len, index, slice. intros Hn Hlen.
  destruct (n <? 0) eqn:E1; [apply Z.ltb_lt in E1; lia|].
  destruct (n + 1 <? 0) eqn:E2; [apply Z.ltb_lt in E2; lia|].
  replace (Z.to_nat (n + 2) - Z.to_nat n)%nat with 2%nat by lia.
  replace (Z.to_nat (n + 1)) with (Z.to_nat n + 1)%nat by lia.
  pose proof (nth_error_skipn (Z.to_nat n) s 0) as H0.
  pose proof (nth_error_skipn (Z.to_nat n) s 1) as H1.
  rewrite Nat.add_0_r in H0. rewrite <- H0, <- H1.
  pose proof (length_skipn (Z.to_nat n) s) as Hs.
  destruct (skipn (Z.to_nat n) s) as [|a [|b t]]; simpl in Hs; try lia.
  exists a, b. auto.
Qed.

(** ** The seed table *)

Lemma seed_table_length : length MAVLINK_MESSAGE_CRCS = 256%nat.
Proof. reflexivity. Qed.

Lemma seed_table_bytes :
  Forall (fun seed => 0 <= seed < 256) MAVLINK_MESSAGE_CRCS.
Proof.
  apply Forall_forall. intros seed Hin.
  assert (forallb (fun z => (0 <=? z) && (z <? 256)) MAVLINK_MESSAGE_CRCS = true)
    as Hall by (vm_compute; reflexivity).
  rewrite forallb_forall in Hall. specialize (Hall seed Hin).
  apply andb_true_iff in Hall. lia.
Qed.

Lemma seed_lookup (m : Z) :
  0 <= m < 256 ->
  exists seed, index MAVLINK_MESSAGE_CRCS m = Some seed /\ 0 <= seed < 256.
Proof.
  intros Hm. unfold index.
  destruct (m <? 0) eqn:E; [apply Z.ltb_lt in E; lia|].
  destruct (nth_error MAVLINK_MESSAGE_CRCS (Z.to_nat m)) as [seed|] eqn:En.
  - exists seed. split; [reflexivity|].
    apply nth_error_In in En.
    exact (proj1 (Forall_forall _ _) seed_table_bytes seed En).
  - apply nth_error_None in En. rewrite seed_table_length in En. lia.
Qed.

(** ** The header *)

Lemma parse_header_Ok (d : bytes) (h : header) :
  parse_header d = Ok h ->
  exists pl sq sy co ms rest,
    d = xfe :: pl :: sq :: sy :: co :: ms :: rest /\
    h = mk_header MAVLINK_MAGIC (ord pl) (ord sq) (ord sy) (ord co) (ord ms).
Proof.
  unfold parse_header, slice. simpl.
  destruct d as [|m [|pl [|sq [|sy [|co [|ms rest]]]]]]; simpl;
    try discriminate;
    try (destruct (ord m =? MAVLINK_MAGIC); discriminate).
  destruct (ord m =? MAVLINK_MAGIC) eqn:E; [|discriminate].
  intros H. injection H as <-. apply ord_magic in E. subst m.
  exists pl, sq, sy, co, ms, rest. split; reflexivity.
Qed.

Lemma header_fields (d : bytes) (h : header) :
  parse_header d = Ok h ->
  0 <= plength h < 256 /\ 0 <= msgid h < 256 /\ 6 <= len d /\
  index d 0 = Some xfe.
Proof.
  intros H. apply parse_header_Ok in H.
  destruct H as (pl & sq & sy & co & ms & rest & -> & ->). simpl.
  pose proof (ord_range pl). pose proof (ord_range ms).
  unfold len. simpl. repeat split; lia.
Qed.

(** The magic as [chr] makes it is unequal to every byte of the data. *)
Lemma magic_never_equal (c : byte) :
  unicode_ne_str (unichr MAVLINK_MAGIC) c = true.
Proof.
  unfold unicode_ne_str, unichr, MAVLINK_MAGIC.
  destruct (ord c <? 128) eqn:E; [|reflexivity].
  apply Z.ltb_lt in E. apply negb_true_iff, Z.eqb_neq. lia.
Qed.

(** When the byte after the proposed packet can be read, the first byte is
    put aside, whatever that byte and the message id are. *)
Lemma try_packet_next_byte (s : state) (h : header) (b : byte) :
  parse_header (data s) = Ok h ->
  index (data s) (total_length h) = Some b ->
  exists lo hi seed,
    index (data s) (total_length h - 2) = Some lo /\
    index (data s) (total_length h - 1) = Some hi /\
    index MAVLINK_MESSAGE_CRCS (msgid h) = Some seed /\
    try_packet s = Next (resynced s xfe).
Proof.
  intros Hh Hb.
  destruct (header_fields _ _ Hh) as (Hpl & Hms & Hlen & H0).
  pose proof (index_Some _ _ _ Hb) as Hrange. unfold total_length in *.
  destruct (slice_two (data s) (6 + plength h + 2 - 2)) as (lo & hi & Hlo & Hhi & Hsl);
    [lia|lia|].
  destruct (seed_lookup (msgid h) Hms) as (seed & Hseed & _).
  exists lo, hi, seed.
  replace (6 + plength h + 2 - 2 + 1) with (6 + plength h + 2 - 1) in Hhi by lia.
  replace (6 + plength h + 2 - 2 + 2) with (6 + plength h + 2) in Hsl by lia.
  repeat split; try assumption.
  unfold try_packet. rewrite Hh. cbv zeta. rewrite Hsl. unfold ULInt16_parse.
  rewrite Hseed, Hb, H0, magic_never_equal. reflexivity.
Qed.

(** Every way [try_packet] can go. *)
Lemma try_packet_cases (s : state) :
  (exists e, parse_header (data s) = Raise e /\ try_packet s = Uncaught e s) \/
  (exists h, parse_header (data s) = Ok h /\
             index (data s) (total_length h) = None /\
             try_packet s = Next (set_done true s)) \/
  (exists h b, parse_header (data s) = Ok h /\
               index (data s) (total_length h) = Some b /\
               try_packet s = Next (resynced s xfe)).
Proof.
  destruct (parse_header (data s)) as [h|e] eqn:Hh.
  - destruct (index (data s) (total_length h)) as [b|] eqn:Hb.
    + destruct (try_packet_next_byte s h b Hh Hb)
        as (lo & hi & seed & _ & _ & _ & Htry).
      right. right. exists h, b. repeat split; assumption.
    + right. left. exists h. split; [reflexivity|]. split; [exact Hb|].
      destruct (header_fields _ _ Hh) as (_ & Hms & _ & _).
      destruct (seed_lookup (msgid h) Hms) as (seed & Hseed & _).
      unfold try_packet. rewrite Hh. cbv zeta.
      fold (total_length h). rewrite Hseed, Hb.
      unfold ULInt16_parse.
      destruct (slice (data s) (total_length h - 2) (total_length h))
        as [|lo [|hi t]]; reflexivity.
  - left. exists e. split; [reflexivity|].
    unfold try_packet. rewrite Hh. reflexivity.
Qed.

(** Every way [skip_junk] can go: nothing to skip, or one junk packet
    written and the data cut at the start of frame. *)
Lemma skip_junk_cases (s : state) :
  (find_next_frame (data s) <= 0 /\ skip_junk s = s) \/
  (0 < find_next_frame (data s) /\
   exists j,
     skip_junk s =
     mk_state (slice_from (data s) (find_next_frame (data s))) (i s) (done s)
              None j (cnt_ok s) (cnt_junk s + 1) (cnt_crc s)
              (pcap_file s ++ [((i s, 0x03, len j), j)])).
Proof.
  unfold skip_junk.
  destruct (find_next_frame (data s) >? 0) eqn:E.
  - right. split; [lia|]. unfold write_junk.
    destruct s as [d n dn sk j ok jk cr f]. simpl in *.
    destruct sk as [c|]; simpl.
    + exists (c :: slice_to d (find_next_frame d)). reflexivity.
    + exists j. reflexivity.
  - left. split; [lia|reflexivity].
Qed.

Lemma skip_junk_data_length (s : state) :
  (length (data (skip_junk s)) <= length (data s))%nat /\
  done (skip_junk s) = done s.
Proof.
  destruct (skip_junk_cases s) as [[_ ->]|[_ [j ->]]]; simpl.
  - split; [lia|reflexivity].
  - unfold slice_from. rewrite length_skipn. split; [lia|reflexivity].
Qed.

(** A pass that leaves [done] unset has shortened the data. *)
Lemma loop_body_shortens (s s' : state) :
  loop_body s = Next s' -> done s = false -> done s' = false ->
  (length (data s') < length (data s))%nat.
Proof.
  unfold loop_body. intros Hbody Hd Hd'.
  set (s0 := set_i (i s + 1) s) in *.
  destruct (skip_junk_data_length s0) as [Hlen Hdone].
  change (data s0) with (data s) in Hlen.
  set (s1 := skip_junk s0) in *. clearbody s1. clearbody s0.
  destruct (try_packet_cases s1)
    as [(e & _ & H)|[(h & _ & _ & H)|(h & b & Hh & Hb & H)]];
    rewrite H in Hbody; try discriminate; injection Hbody as <-.
  - simpl in Hd'. discriminate.
  - destruct (header_fields _ _ Hh) as (_ & _ & Hl & _).
    unfold len in Hl. unfold resynced, slice_from. cbn [data].
    rewrite length_skipn. lia.
Qed.

(** One pass more than there are bytes is enough for the loop to end. *)
Lemma while_not_done_fuel (fuel : nat) (s : state) :
  (length (data s) < fuel)%nat ->
  forall s', while_not_done fuel s <> OutOfFuel s'.
Proof.
  revert s. induction fuel as [|fuel IH]; intros s Hlen s'; [lia|].
  simpl. destruct (done s) eqn:Hd; [discriminate|].
  destruct (loop_body s) as [s1|e s1] eqn:Hbody; [|discriminate].
  destruct (done s1) eqn:Hd1.
  - destruct fuel; simpl; rewrite Hd1; discriminate.
  - apply IH. pose proof (loop_body_shortens s s1 Hbody Hd Hd1). lia.
Qed.

(** [convert_file] returns on every input, with statistics or by an
    exception. *)
Lemma convert_file_returns (mavlink_file : bytes) :
  (exists stats s, convert_file mavlink_file = Completed stats s) \/
  (exists e s, convert_file mavlink_file = Crashed e s).
Proof.
  unfold convert_file, convert_file_fuel.
  pose proof (while_not_done_fuel (S (length mavlink_file)) (init mavlink_file))
    as Hfuel.
  destruct (while_not_done (S (length mavlink_file)) (init mavlink_file))
    as [s|e s|s].
  - destruct (statistics s) as [stats|e]; [left|right]; eauto.
  - right. eauto.
  - exfalso. apply (Hfuel (Nat.lt_succ_diag_r _) s). reflexivity.
Qed.

Lemma final_state_convert_file (mavlink_file : bytes) :
  final_state (convert_file mavlink_file) =
  end_state (while_not_done (S (length mavlink_file)) (init mavlink_file)).
Proof.
  unfold convert_file, convert_file_fuel.
  destruct (while_not_done (S (length mavlink_file)) (init mavlink_file))
    as [s|e s|s]; try reflexivity.
  simpl. destruct (statistics s); reflexivity.
Qed.

(** A property of states that the two halves of the loop body keep is kept
    by the whole loop, however it ends. *)
Lemma while_not_done_invariant (P : state -> Prop) :
  (forall s, P s -> P (set_i (i s + 1) s)) ->
  (forall s, P s -> P (skip_junk s)) ->
  (forall s s', P s -> try_packet s = Next s' -> P s') ->
  forall fuel s, P s -> P (end_state (while_not_done fuel s)).
Proof.
  intros Hi Hskip Htry. induction fuel as [|fuel IH]; intros s Hs; simpl.
  - destruct (done s); exact Hs.
  - destruct (done s); [exact Hs|].
    destruct (loop_body s) as [s1|e s1] eqn:Hbody.
    + apply IH. unfold loop_body in Hbody.
      exact (Htry _ _ (Hskip _ (Hi _ Hs)) Hbody).
    + simpl. unfold loop_body in Hbody.
      destruct (try_packet_cases (skip_junk (set_i (i s + 1) s)))
        as [(e' & _ & H)|[(h & _ & _ & H)|(h & b & _ & _ & H)]];
        rewrite H in Hbody; try discriminate.
      injection Hbody as _ <-. apply Hskip, Hi, Hs.
Qed.

(** ** Records of the capture file *)

Lemma unpack_pack_I (e : pcap.endian) (n : Z) :
  0 <= n < 2 ^ 32 ->
  exists b0 b1 b2 b3,
    pcap.pack_I e n = Ok [b0; b1; b2; b3] /\ pcap.unpack_I e b0 b1 b2 b3 = n.
Proof.
  intros Hn. unfold pcap.pack_I.
  replace ((0 <=? n) && (n <? 2 ^ 32)) with true
    by (symmetry; apply andb_true_iff; split; [apply Z.leb_le|apply Z.ltb_lt]; lia).
  assert (Hsum : n mod 256 + 2 ^ 8 * ((n / 2 ^ 8) mod 256)
                 + 2 ^ 16 * ((n / 2 ^ 16) mod 256)
                 + 2 ^ 24 * ((n / 2 ^ 24) mod 256) = n).
  { change (2 ^ 8) with 256. change (2 ^ 16) with 65536.
    change (2 ^ 24) with 16777216. change (2 ^ 32) with 4294967296 in Hn.
    Z.div_mod_to_equations. lia. }
  destruct e; cbv zeta; do 4 eexists; (split; [reflexivity|]);
    unfold pcap.unpack_I;
    rewrite !ord_chr by (apply Z.mod_pos_bound; lia); lia.
Qed.

Lemma unpack_pack_IIII (e : pcap.endian) (a b c d : Z) :
  0 <= a < 2 ^ 32 -> 0 <= b < 2 ^ 32 -> 0 <= c < 2 ^ 32 -> 0 <= d < 2 ^ 32 ->
  exists hdr,
    pcap.pack_IIII e a b c d = Ok hdr /\ len hdr = 16 /\
    pcap.unpack_IIII e hdr = Ok (a, b, c, d).
Proof.
  intros Ha Hb Hc Hd. unfold pcap.pack_IIII.
  destruct (unpack_pack_I e a Ha) as (a0 & a1 & a2 & a3 & -> & Ea).
  destruct (unpack_pack_I e b Hb) as (b0 & b1 & b2 & b3 & -> & Eb).
  destruct (unpack_pack_I e c Hc) as (c0 & c1 & c2 & c3 & -> & Ec).
  destruct (unpack_pack_I e d Hd) as (d0 & d1 & d2 & d3 & -> & Ed).
  eexists. split; [reflexivity|]. split; [reflexivity|].
  cbn [app pcap.unpack_IIII]. rewrite Ea, Eb, Ec, Ed. reflexivity.
Qed.

Lemma read_written (e : pcap.endian) (p : packet) (before after : bytes) :
  fits_packet p ->
  exists record,
    pcap.write (pcap.mk e before) p = Ok (pcap.mk e (before ++ record)) /\
    pcap.read (pcap.mk e (record ++ after)) = Ok (Some p, pcap.mk e after).
Proof.
  destruct p as [[[number flags] length] datum].
  unfold fits_packet, number_of, flags_of, length_of, datum_of. simpl.
  intros (Hn & Hf & -> & Hl). pose proof (len_nonneg datum) as Hpos.
  destruct (unpack_pack_IIII e number flags (len datum) (len datum))
    as (hdr & Hpack & Hlen & Hunpack); try lia.
  exists (hdr ++ datum). split.
  - unfold pcap.write. simpl. rewrite Hpack, app_assoc. reflexivity.
  - unfold pcap.read, pcap.stream_read. simpl pcap.stream. simpl pcap._endian.
    rewrite <- app_assoc.
    rewrite (slice_to_app hdr (datum ++ after) 16) by (symmetry; exact Hlen).
    rewrite (slice_from_app hdr (datum ++ after) 16) by (symmetry; exact Hlen).
    rewrite Hunpack.
    destruct hdr as [|h0 hdr']; [discriminate Hlen|].
    rewrite slice_to_app, slice_from_app by reflexivity. reflexivity.
Qed.

Lemma write_all_iter (e : pcap.endian) (packets : list packet) :
  Forall fits_packet packets ->
  forall before,
  exists body,
    pcap.write_all (pcap.mk e before) packets = Ok (pcap.mk e (before ++ body)) /\
    forall fuel, (length packets < fuel)%nat ->
      pcap.iter fuel (pcap.mk e body) = Some (packets, None).
Proof.
  induction 1 as [|p ps Hp _ IH]; intros before.
  - exists []. rewrite app_nil_r. split; [reflexivity|].
    intros [|fuel] Hfuel; [simpl in Hfuel; lia|]. reflexivity.
  - destruct (read_written e p before [] Hp) as (record & Hw & _).
    destruct (IH (before ++ record)) as (body & Hws & Hr).
    destruct (read_written e p before body Hp) as (record' & Hw' & Hread).
    assert (record' = record) as ->.
    { rewrite Hw in Hw'. injection Hw' as Heq.
      apply app_inv_head in Heq. congruence. }
    exists (record ++ body). split.
    + simpl. rewrite Hw, Hws, app_assoc. reflexivity.
    + intros [|fuel] Hfuel; [simpl in Hfuel; lia|].
      simpl pcap.iter. rewrite Hread.
      rewrite Hr by (simpl in Hfuel; lia). reflexivity.
Qed.

Lemma write_frames_packets (frames : list classified_frame) :
  write_frames frames =
  map (fun f : classified_frame =>
         let '(number, data, flags) := f in ((number, flags, len data), data))
      frames.
Proof.
  unfold write_frames.
  assert (forall acc,
            fold_left write_frame frames acc =
            acc ++ map (fun f : classified_frame =>
                          let '(number, data, flags) := f in
                          ((number, flags, len data), data)) frames) as H.
  { induction frames as [|[[n d] f] frames IH]; intros acc; simpl.
    - rewrite app_nil_r. reflexivity.
    - rewrite IH. unfold write_packet. rewrite <- app_assoc. reflexivity. }
  apply (H []).
Qed.

Lemma pack_I_Ok (e : pcap.endian) (n : Z) (s : bytes) :
  pcap.pack_I e n = Ok s -> 0 <= n < 2 ^ 32.
Proof.
  unfold pcap.pack_I.
  destruct ((0 <=? n) && (n <? 2 ^ 32)) eqn:E; [|discriminate].
  intros _. apply andb_true_iff in E. destruct E as [E1 E2].
  apply Z.leb_le in E1. apply Z.ltb_lt in E2. lia.
Qed.

Lemma write_Ok_fits (self w : pcap.t) (p : packet) :
  pcap.write self p = Ok w ->
  0 <= number_of p < 2 ^ 32 /\ 0 <= flags_of p < 2 ^ 32 /\
  0 <= length_of p < 2 ^ 32 /\ len (datum_of p) < 2 ^ 32.
Proof.
  destruct p as [[[n f] l] d]. unfold pcap.write, pcap.pack_IIII.
  unfold number_of, flags_of, length_of, datum_of. cbn [fst snd].
  destruct (pcap.pack_I (pcap._endian self) n) as [sn|] eqn:En; [|discriminate].
  destruct (pcap.pack_I (pcap._endian self) f) as [sf|] eqn:Ef; [|discriminate].
  destruct (pcap.pack_I (pcap._endian self) l) as [sl|] eqn:El; [|discriminate].
  destruct (pcap.pack_I (pcap._endian self) (len d)) as [sd|] eqn:Ed;
    [|discriminate].
  intros _. apply pack_I_Ok in En, Ef, El, Ed. lia.
Qed.

Lemma write_all_Ok_fits (packets : list packet) :
  forall self w,
    pcap.write_all self packets = Ok w ->
    Forall (fun p => length_of p = len (datum_of p)) packets ->
    Forall fits_packet packets.
Proof.
  induction packets as [|p ps IH]; intros self w Hw Hlen; [constructor|].
  simpl in Hw. destruct (pcap.write self p) as [self'|] eqn:Hp; [|discriminate].
  inversion Hlen as [|? ? Hl Hls]; subst.
  constructor; [|exact (IH self' w Hw Hls)].
  apply write_Ok_fits in Hp. unfold fits_packet. tauto.
Qed.

(** Frames that fit the 32-bit fields of a record are written without an
    error and read back as they were. *)
Lemma fitting_frames_roundtrip (e : pcap.endian) (frames : list classified_frame) :
  Forall fits_record frames ->
  exists body,
    pcap.write_all (pcap.mk e []) (write_frames frames) = Ok (pcap.mk e body) /\
    forall fuel, (length frames < fuel)%nat ->
      pcap.iter fuel (pcap.mk e body) = Some (write_frames frames, None).
Proof.
  intros Hfits.
  assert (Forall fits_packet (write_frames frames)) as Hp.
  { rewrite write_frames_packets. apply Forall_map.
    eapply Forall_impl; [|exact Hfits].
    intros [[n d] f] (Hn & Hf & Hl).
    unfold fits_packet, number_of, flags_of, length_of, datum_of.
    cbn [fst snd]. repeat split; try lia. }
  destruct (write_all_iter e _ Hp []) as (body & Hw & Hr).
  exists body. split; [exact Hw|].
  intros fuel Hfuel. apply Hr.
  rewrite write_frames_packets, length_map. exact Hfuel.
Qed.

(** C9.  When frames, each with its sequence index, its bytes and its flag,
    have been written one after the other with [write_packet] and
    [pcap.write], the records that [pcap.read] then returns from what was
    written, in the byte order it was written in, are as many as the
    frames and have, in the same order, the same index, the same bytes, the
    length of these bytes and the same flag. *)
Theorem capture_roundtrip
    (e : pcap.endian) (frames : list classified_frame) (w : pcap.t) :
  pcap.write_all (pcap.mk e []) (write_frames frames) = Ok w ->
  pcap._endian w = e /\
  forall fuel, (length frames < fuel)%nat ->
    exists records,
      pcap.iter fuel (pcap.mk e (pcap.stream w)) = Some (records, None) /\
      length records = length frames /\
      map number_of records = map (fun f => fst (fst f)) frames /\
      map datum_of records = map (fun f => snd (fst f)) frames /\
      map length_of records = map (fun f => len (snd (fst f))) frames /\
      map flags_of records = map (fun f => snd f) frames.
Proof.
  intros Hw.
  assert (Forall fits_packet (write_frames frames)) as Hp.
  { apply (write_all_Ok_fits _ _ _ Hw).
    rewrite write_frames_packets. apply Forall_map, Forall_forall.
    intros [[n d] f] _. reflexivity. }
  destruct (write_all_iter e _ Hp []) as (body & Hw' & Hr).
  rewrite Hw in Hw'. injection Hw' as ->. cbn [pcap._endian pcap.stream].
  split; [reflexivity|].
  intros fuel Hfuel. exists (write_frames frames).
  split; [apply Hr; rewrite write_frames_packets, length_map; exact Hfuel|].
  rewrite write_frames_packets.
  split; [apply length_map|].
  rewrite !map_map.
  repeat split; apply map_ext; intros [[n d] f]; reflexivity.
Qed.

Lemma capture_roundtrip_witness :
  pcap.write_all (pcap.mk pcap.little []) (write_frames sample_frames)
    = Ok (pcap.mk pcap.little sample_capture) /\
  forall fuel, (2 < fuel)%nat ->
    exists records,
      pcap.iter fuel (pcap.mk pcap.little sample_capture) = Some (records, None) /\
      length records = 2%nat /\
      map number_of records = [1; 1] /\
      map datum_of records = [[x00; x00]; sample_frame] /\
      map length_of records = [2; 10] /\
      map flags_of records = [3; 0].
Proof.
  assert (pcap.write_all (pcap.mk pcap.little []) (write_frames sample_frames)
          = Ok (pcap.mk pcap.little sample_capture)) as Hw
    by (vm_compute; reflexivity).
  split; [exact Hw|].
  exact (proj2 (capture_roundtrip pcap.little sample_frames _ Hw)).
Defined.

(** ** The data left *)

Lemma index_slice_from {A} (s : list A) (n : Z) (a : A) :
  index s n = Some a -> exists t, slice_from s n = a :: t.
Proof.
  unfold index, slice_from. destruct (n <? 0); [discriminate|].
  intros H. apply nth_error_split in H. destruct H as (l1 & l2 & -> & Hl).
  exists l2. rewrite <- Hl, skipn_app, Nat.sub_diag, skipn_all. reflexivity.
Qed.




(** ** One pass of the loop *)

Lemma skip_junk_fields (s : state) :
  i (skip_junk s) = i s /\ done (skip_junk s) = done s /\
  cnt_ok (skip_junk s) = cnt_ok s /\ cnt_crc (skip_junk s) = cnt_crc s.
Proof.
  destruct (skip_junk_cases s) as [[_ ->]|[_ [j ->]]]; simpl; auto.
Qed.

(** C5.  A pass whose byte after the proposed packet is the magic writes
    no packet, whatever the checksum: it keeps the first byte as skipped
    character, moves the data on by that one byte and leaves [cnt_ok] and
    [cnt_crc] as they were.  So at the sample frame, which is well formed
    and has the magic behind it, the pass writes nothing and moves the data
    on by one byte, not by the ten of the frame.  The magic of line 193 is
    a unicode string, unequal to every byte of the data. *)
Theorem confirmed_frame_is_resynced :
  (forall (s : state) (h : header),
     parse_header (data s) = Ok h ->
     index (data s) (6 + plength h + 2) = Some xfe ->
     exists s',
       try_packet s = Next s' /\
       pcap_file s' = pcap_file s /\
       skipped_char s' = Some xfe /\
       data s' = slice_from (data s) 1 /\
       cnt_ok s' = cnt_ok s /\ cnt_crc s' = cnt_crc s) /\
  well_formed_frame sample_frame = true /\
  data sample_state = sample_frame ++ [xfe] /\
  parse_header (data sample_state) = Ok sample_header /\
  index (data sample_state) (6 + plength sample_header + 2) = Some xfe /\
  unicode_ne_str (unichr MAVLINK_MAGIC) xfe = true /\
  exists s',
    loop_body sample_state = Next s' /\
    pcap_file s' = [] /\
    skipped_char s' = Some xfe /\
    data s' = [x02; x00; x01; x01; x00; x11; x22; xd7; xa5; xfe] /\
    len (data s') = len (data sample_state) - 1 /\
    cnt_ok s' = 0 /\ cnt_crc s' = 0.
Proof.
  split.
  { intros s h Hh Hb.
    destruct (try_packet_next_byte s h xfe Hh Hb) as (_ & _ & _ & _ & _ & _ & H).
    exists (resynced s xfe). split; [exact H|]. repeat split; reflexivity. }
  split; [vm_compute; reflexivity|].
  repeat (split; [reflexivity|]).
  eexists. split; [vm_compute; reflexivity|].
  repeat split; reflexivity.
Qed.

(** C7.  When the byte after the proposed packet can be read and is not the
    magic, the pass writes nothing for the packet, keeps the first byte of
    the data as the skipped character, moves the data on by that one byte
    and leaves the counters and [done] as they were; a next pass that finds
    the start of frame further on writes the kept byte in front of the
    junk. *)
Theorem resync_keeps_first_byte (s : state) (h : header) (b : byte) :
  parse_header (data (skip_junk (set_i (i s + 1) s))) = Ok h ->
  index (data (skip_junk (set_i (i s + 1) s))) (6 + plength h + 2) = Some b ->
  b <> xfe ->
  exists c s',
    index (data (skip_junk (set_i (i s + 1) s))) 0 = Some c /\
    loop_body s = Next s' /\
    pcap_file s' = pcap_file (skip_junk (set_i (i s + 1) s)) /\
    skipped_char s' = Some c /\
    data s' = slice_from (data (skip_junk (set_i (i s + 1) s))) 1 /\
    len (data s') = len (data (skip_junk (set_i (i s + 1) s))) - 1 /\
    cnt_ok s' = cnt_ok s /\ cnt_crc s' = cnt_crc s /\
    cnt_junk s' = cnt_junk (skip_junk (set_i (i s + 1) s)) /\
    done s' = done s /\
    (0 < find_next_frame (data s') ->
     pcap_file (skip_junk (set_i (i s' + 1) s')) =
     pcap_file s' ++
     [((i s' + 1, 3, 1 + find_next_frame (data s')),
       c :: slice_to (data s') (find_next_frame (data s')))]).
Proof.
  intros Hh Hb Hne.
  destruct (skip_junk_fields (set_i (i s + 1) s)) as (Hi & Hd & Hok & Hcrc).
  set (s1 := skip_junk (set_i (i s + 1) s)) in *.
  destruct (header_fields _ _ Hh) as (_ & _ & Hlen & H0).
  destruct (try_packet_next_byte s1 h b Hh Hb)
    as (lo & hi & seed & _ & _ & _ & Htry).
  exists xfe, (resynced s1 xfe).
  split; [exact H0|]. split; [exact Htry|].
  unfold resynced. cbn [pcap_file skipped_char data cnt_ok cnt_crc cnt_junk done i].
  rewrite Hd, Hok, Hcrc. cbn [done cnt_ok cnt_crc set_i].
  repeat (split; [reflexivity|]).
  split; [apply len_slice_from; lia|].
  repeat (split; [reflexivity|]).
  intros Hk. unfold skip_junk. cbn [data set_i].
  replace (find_next_frame (slice_from (data s1) 1) >? 0) with true
    by (symmetry; apply Z.gtb_lt; exact Hk).
  unfold write_junk, write_packet.
  cbn [skipped_char set_i set_junk set_skipped_char set_pcap_file set_data
       set_cnt_junk pcap_file junk i data].
  pose proof (find_range (slice_from (data s1) 1) xfe) as Hr.
  unfold find_next_frame in *.
  rewrite len_cons, len_slice_to by lia. reflexivity.
Qed.

Lemma resync_keeps_first_byte_witness :
  parse_header (data (skip_junk (set_i (i misframed_state + 1) misframed_state)))
    = Ok sample_header /\
  index (data (skip_junk (set_i (i misframed_state + 1) misframed_state)))
        (6 + plength sample_header + 2) = Some x00 /\
  x00 <> xfe /\
  exists s',
    loop_body misframed_state = Next s' /\
    pcap_file s' = [] /\ skipped_char s' = Some xfe /\
    data s' = [x02; x00; x01; x01; x00; x11; x22; xd7; xa5; x00].
Proof.
  assert (parse_header
            (data (skip_junk (set_i (i misframed_state + 1) misframed_state)))
          = Ok sample_header) as Hh by reflexivity.
  assert (index (data (skip_junk (set_i (i misframed_state + 1) misframed_state)))
                (6 + plength sample_header + 2) = Some x00) as Hb
    by reflexivity.
  assert (x00 <> xfe) as Hne by discriminate.
  split; [exact Hh|]. split; [exact Hb|]. split; [exact Hne|].
  destruct (resync_keeps_first_byte misframed_state sample_header x00 Hh Hb Hne)
    as (c & s' & Hc & Hbody & Hfile & Hsk & Hdata & _).
  exists s'. split; [exact Hbody|].
  vm_compute in Hc. injection Hc as <-.
  rewrite Hfile, Hsk, Hdata. repeat split; reflexivity.
Defined.

(** ** Message ids the table holds no seed for *)

(** The ids whose entry of the table is 0. *)
Lemma seed_zero_ids (m : Z) :
  0 <= m < 256 ->
  (index MAVLINK_MESSAGE_CRCS m = Some 0 <->
   m = 3 \/ 8 <= m <= 10 \/ 12 <= m <= 19 \/ m = 65 \/ m = 68 \/
   71 <= m <= 73 \/ m = 75 \/ 78 <= m <= 79 \/ 82 <= m <= 88 \/
   93 <= m <= 99 \/ 106 <= m <= 109 \/ 113 <= m <= 146 \/ m = 159 \/
   173 <= m <= 248 \/ m = 255).
Proof.
  intros Hm.
  pose (zero_at := fun k : nat =>
          match nth_error MAVLINK_MESSAGE_CRCS k with
          | Some 0 => true
          | _ => false
          end).
  pose (listed := fun m : Z =>
          (m =? 3) || ((8 <=? m) && (m <=? 10)) || ((12 <=? m) && (m <=? 19)) ||
          (m =? 65) || (m =? 68) || ((71 <=? m) && (m <=? 73)) || (m =? 75) ||
          ((78 <=? m) && (m <=? 79)) || ((82 <=? m) && (m <=? 88)) ||
          ((93 <=? m) && (m <=? 99)) || ((106 <=? m) && (m <=? 109)) ||
          ((113 <=? m) && (m <=? 146)) || (m =? 159) ||
          ((173 <=? m) && (m <=? 248)) || (m =? 255)).
  assert (forallb (fun k => Bool.eqb (zero_at k) (listed (Z.of_nat k)))
                  (seq 0 256) = true) as Hall by (vm_compute; reflexivity).
  rewrite forallb_forall in Hall.
  assert (In (Z.to_nat m) (seq 0 256)) as Hin by (apply in_seq; lia).
  apply Hall, eqb_prop in Hin. rewrite Z2Nat.id in Hin by lia.
  assert (index MAVLINK_MESSAGE_CRCS m = Some 0 <-> zero_at (Z.to_nat m) = true)
    as ->.
  { unfold index, zero_at.
    destruct (m <? 0) eqn:E; [apply Z.ltb_lt in E; lia|].
    destruct (nth_error MAVLINK_MESSAGE_CRCS (Z.to_nat m)) as [[| |]|];
      split; intros H; try reflexivity; discriminate H. }
  rewrite Hin. unfold listed.
  rewrite !orb_true_iff, !andb_true_iff, !Z.leb_le, !Z.eqb_eq. tauto.
Qed.

(** C8.  The seed of every message id from 0 to 255 is found in the table
    and is a byte, and it is 0 exactly at the ids listed, among them 173 to
    248 and 255; whatever the message id of the header, a pass whose byte
    after the proposed packet can be read does not end the loop, and it
    writes no packet for the frame either: it puts the first byte aside.
    So the well-formed frame with message id 255, seed 0, that has the
    magic behind it is not written with flag 0 or 1: the run on it and a
    header of eight bytes writes its ten bytes as one junk packet. *)
Theorem unknown_id_frame_not_written :
  (forall m : byte,
     exists seed, index MAVLINK_MESSAGE_CRCS (ord m) = Some seed /\
                  0 <= seed < 256) /\
  (forall m, 0 <= m < 256 ->
     (index MAVLINK_MESSAGE_CRCS m = Some 0 <->
      m = 3 \/ 8 <= m <= 10 \/ 12 <= m <= 19 \/ m = 65 \/ m = 68 \/
      71 <= m <= 73 \/ m = 75 \/ 78 <= m <= 79 \/ 82 <= m <= 88 \/
      93 <= m <= 99 \/ 106 <= m <= 109 \/ 113 <= m <= 146 \/ m = 159 \/
      173 <= m <= 248 \/ m = 255)) /\
  (forall (s : state) (h : header) (b : byte),
     parse_header (data s) = Ok h ->
     index (data s) (6 + plength h + 2) = Some b ->
     exists seed s',
       index MAVLINK_MESSAGE_CRCS (msgid h) = Some seed /\
       try_packet s = Next s' /\ done s' = done s /\
       pcap_file s' = pcap_file s /\
       cnt_ok s' = cnt_ok s /\ cnt_crc s' = cnt_crc s /\
       data s' = slice_from (data s) 1) /\
  well_formed_frame unknown_id_frame = true /\
  parse_header (data unknown_id_state) = Ok unknown_id_header /\
  msgid unknown_id_header = 255 /\
  index (data unknown_id_state) (6 + plength unknown_id_header + 2) = Some xfe /\
  (exists s',
     loop_body unknown_id_state = Next s' /\ done s' = false /\
     pcap_file s' = [] /\ skipped_char s' = Some xfe /\
     data s' = [x02; x00; x01; x01; xff; x11; x22; x94; x72; xfe]) /\
  exists stats s,
    convert_file (unknown_id_frame ++ lone_header_input) = Completed stats s /\
    pcap_file s = [((2, 3, 10), unknown_id_frame)] /\
    data s = lone_header_input /\
    valid_packets stats = 0 /\ crc_errors stats = 0 /\ junk_fragments stats = 1.
Proof.
  split; [|split; [|split]].
  - intros m. apply seed_lookup. apply ord_range.
  - exact seed_zero_ids.
  - intros s h b Hh Hb.
    destruct (try_packet_next_byte s h b Hh Hb)
      as (lo & hi & seed & _ & _ & Hseed & Htry).
    exists seed, (resynced s xfe).
    split; [exact Hseed|]. split; [exact Htry|]. repeat split; reflexivity.
  - split; [vm_compute; reflexivity|].
    repeat (split; [reflexivity|]).
    split.
    + eexists. split; [vm_compute; reflexivity|]. repeat split; reflexivity.
    + eexists. eexists. split; [vm_compute; reflexivity|].
      repeat split; reflexivity.
Qed.

(** ** Well-formed frames *)





(** ** Runs of [convert_file] on given inputs *)

(** C1.  On [00 FE 00 00 00 00 00 00 00] the run ends normally with eight
    bytes left in the data and no skipped character pending, and the one
    packet written, the junk, is empty: the byte in front of the magic is in
    no packet, so the bytes written and pending are not the input less the
    tail. *)
Theorem leading_junk_byte_lost :
  exists stats s,
    convert_file leading_junk_input = Completed stats s /\
    pcap_file s = [((1, 3, 0), [])] /\
    skipped_char s = None /\
    data s = lone_header_input /\
    len leading_junk_input = 9 /\ len (data s) = 8 /\
    emitted_bytes (pcap_file s) + pending_bytes s = 0 /\
    emitted_bytes (pcap_file s) + pending_bytes s
      <> len leading_junk_input - len (data s).
Proof.
  eexists. eexists. split; [vm_compute; reflexivity|].
  cbn [pcap_file skipped_char data].
  repeat split; try reflexivity. vm_compute. discriminate.
Qed.

(** C2.  Runs that end by an exception no handler catches: the empty
    input and a lone magic, where the header has too few bytes; an input
    without the magic, where the constant of the header does not match; and
    an input on which the loop ends with nothing written, where the closing
    percentage divides by zero. *)
Theorem runs_that_raise :
  (exists s, convert_file [] = Crashed FieldError s /\ pcap_file s = []) /\
  (exists s, convert_file [xfe] = Crashed FieldError s /\ pcap_file s = []) /\
  (exists s, convert_file [x00] = Crashed ConstError s /\ pcap_file s = []) /\
  (exists s, convert_file lone_header_input = Crashed ZeroDivisionError s /\
             done s = true /\
             cnt_ok s = 0 /\ cnt_crc s = 0 /\ cnt_junk s = 0) /\
  (exists s, convert_file (sample_frame ++ [xfe]) = Crashed FieldError s /\
             pcap_file s = [((2, 3, 10), sample_frame)]).
Proof.
  repeat split; eexists; (split; [vm_compute; reflexivity|]);
    repeat split; reflexivity.
Qed.

(** C3, the claim as it is written: the run on [00 00] and the sample frame
    does not write a junk packet of two bytes and then a frame packet of ten
    bytes with flag 0. *)
Lemma junk_then_frame_not_two_units :
  well_formed_frame sample_frame = true /\ len sample_frame = 10 /\
  ~ (exists n1 j n2 f,
       pcap_file (final_state (convert_file junk_then_frame_input)) =
         [((n1, 3, len j), j); ((n2, 0, len f), f)] /\
       len j = 2 /\ len f = 10).
Proof.
  split; [vm_compute; reflexivity|]. split; [reflexivity|].
  intros (n1 & j & n2 & f & H & _). vm_compute in H. discriminate H.
Qed.

(** C3, as the code has it.  On [00 00] and the sample frame, which is well
    formed and ten bytes long, the run ends normally having written one
    packet, with flag 3; the frame, with no byte behind it, stays in the
    data and is not written. *)
Theorem junk_then_frame_units :
  well_formed_frame sample_frame = true /\ len sample_frame = 10 /\
  exists stats s j,
    convert_file junk_then_frame_input = Completed stats s /\
    pcap_file s = [((1, 3, len j), j)] /\
    data s = sample_frame /\
    valid_packets stats = 0 /\ crc_errors stats = 0 /\
    junk_fragments stats = 1.
Proof.
  split; [vm_compute; reflexivity|]. split; [reflexivity|].
  eexists. eexists. exists []. split; [vm_compute; reflexivity|].
  repeat split; reflexivity.
Qed.

(** C4.  In the first pass on [00 00] and the sample frame the start of
    frame is found at offset 2 and no skipped character is pending; the junk
    packet written is the empty string that [junk] was initialised to, not
    the two bytes in front of the magic, and the junk counter goes up by
    one. *)
Theorem first_junk_is_empty :
  find_next_frame (data (init junk_then_frame_input)) = 2 /\
  skipped_char (init junk_then_frame_input) = None /\
  pcap_file (skip_junk (set_i 1 (init junk_then_frame_input))) =
    [((1, 3, 0), [])] /\
  cnt_junk (skip_junk (set_i 1 (init junk_then_frame_input))) = 1 /\
  data (skip_junk (set_i 1 (init junk_then_frame_input))) = sample_frame /\
  pcap_file (skip_junk (set_i 1 (init junk_then_frame_input))) <>
    [((1, 3, 2), [x00; x00])].
Proof.
  repeat split; try reflexivity. vm_compute. discriminate.
Qed.


(** ** The search for the start of frame and the header, in full *)

Lemma find_index (s : bytes) (c : byte) :
  0 <= find s c ->
  index s (find s c) = Some c /\ ~ In c (slice_to s (find s c)).
Proof.
  unfold index, slice_to.
  induction s as [|b s IH]; simpl; [lia|].
  destruct (Byte.eqb b c) eqn:E.
  - apply Byte.byte_dec_bl in E. subst. intros _. simpl. auto.
  - apply Byte.eqb_false in E.
    destruct (find s c <? 0) eqn:El; [lia|]. apply Z.ltb_ge in El.
    intros _. destruct (IH El) as (H1 & H2).
    destruct (find s c <? 0) eqn:El'; [apply Z.ltb_lt in El'; lia|].
    destruct (find s c + 1 <? 0) eqn:El''; [apply Z.ltb_lt in El''; lia|].
    replace (Z.to_nat (find s c + 1)) with (S (Z.to_nat (find s c))) by lia.
    simpl. split; [exact H1|].
    intros [H|H]; [contradiction|]. apply H2. exact H.
Qed.

(** X1.  [find_next_frame] returns -1 exactly when the data holds no magic
    byte, and otherwise the offset of the first one: it returns [k] exactly
    when the byte at [k] is the magic and no byte before it is. *)
Theorem find_next_frame_first (d : bytes) :
  (find_next_frame d = -1 <-> ~ In xfe d) /\
  (forall k : nat,
     find_next_frame d = Z.of_nat k <->
     nth_error d k = Some xfe /\ ~ In xfe (firstn k d)).
Proof.
  split; [apply find_absent|].
  intros k. unfold find_next_frame. split.
  - intros Hk.
    assert (0 <= find d xfe) as Hpos by lia.
    destruct (find_index d xfe Hpos) as (H1 & H2).
    unfold index, slice_to in *. rewrite Hk, Nat2Z.id in *.
    destruct (Z.of_nat k <? 0) eqn:E; [apply Z.ltb_lt in E; lia|]. auto.
  - intros (Hk & Hpre).
    apply nth_error_split in Hk. destruct Hk as (l1 & l2 & Hd & Hl).
    assert (firstn k d = l1) as Hf.
    { rewrite Hd, <- Hl, firstn_app, Nat.sub_diag, firstn_all. simpl.
      apply app_nil_r. }
    rewrite Hf in Hpre. rewrite Hd, find_app by exact Hpre.
    unfold len. rewrite Hl. reflexivity.
Qed.

(** X2.  [parse_header] returns a header exactly for data of six bytes or
    more that starts with the magic, and its fields are then the five bytes
    after the magic; it raises [ConstError] exactly when the data starts
    with another byte, and [FieldError] exactly when the data is empty or
    starts with the magic and is shorter than six bytes. *)
Theorem parse_header_outcomes (d : bytes) :
  (forall h,
     parse_header d = Ok h <->
     exists pl sq sy co ms rest,
       d = xfe :: pl :: sq :: sy :: co :: ms :: rest /\
       h = mk_header 0xfe (ord pl) (ord sq) (ord sy) (ord co) (ord ms)) /\
  (parse_header d = Raise ConstError <->
   exists b t, d = b :: t /\ b <> xfe) /\
  (parse_header d = Raise FieldError <->
   d = [] \/ exists t, d = xfe :: t /\ len d < 6).
Proof.
  split; [|split].
  - intros h. split; [apply parse_header_Ok|].
    intros (pl & sq & sy & co & ms & rest & -> & ->). reflexivity.
  - split.
    + destruct d as [|m t]; [discriminate|]. intros H.
      exists m, t. split; [reflexivity|]. intros ->.
      destruct t as [|pl [|sq [|sy [|co [|ms rest]]]]]; discriminate H.
    + intros (b & t & -> & Hb). unfold parse_header, slice. simpl.
      destruct (ord b =? MAVLINK_MAGIC) eqn:E; [|reflexivity].
      apply ord_magic in E. contradiction.
  - split.
    + destruct d as [|m t]; [auto|]. intros H. right.
      unfold parse_header, slice in H. simpl in H.
      destruct (ord m =? MAVLINK_MAGIC) eqn:E; [|discriminate H].
      apply ord_magic in E. subst m. exists t. split; [reflexivity|].
      destruct t as [|pl [|sq [|sy [|co [|ms rest]]]]];
        try discriminate H; unfold len; simpl; lia.
    + intros [->|(t & -> & Hlen)]; [reflexivity|].
      destruct t as [|pl [|sq [|sy [|co [|ms rest]]]]]; try reflexivity.
      unfold len in Hlen. simpl in Hlen. lia.
Qed.

(** ** Invariants of the loop *)

Lemma skip_junk_none (s : state) :
  find_next_frame (data s) <= 0 -> skip_junk s = s.
Proof.
  intros H. unfold skip_junk.
  destruct (find_next_frame (data s) >? 0) eqn:E; [lia|reflexivity].
Qed.

(** The search that finds the start of frame further on, in full. *)
Lemma skip_junk_found (s : state) :
  0 < find_next_frame (data s) ->
  skip_junk s =
  mk_state (slice_from (data s) (find_next_frame (data s))) (i s) (done s)
    None
    (match skipped_char s with
     | Some c => c :: slice_to (data s) (find_next_frame (data s))
     | None => junk s
     end)
    (cnt_ok s) (cnt_junk s + 1) (cnt_crc s)
    (pcap_file s ++
     [((i s, 3,
        len (match skipped_char s with
             | Some c => c :: slice_to (data s) (find_next_frame (data s))
             | None => junk s
             end)),
       match skipped_char s with
       | Some c => c :: slice_to (data s) (find_next_frame (data s))
       | None => junk s
       end)]).
Proof.
  intros H. unfold skip_junk.
  destruct (find_next_frame (data s) >? 0) eqn:E; [|lia].
  destruct s as [d n dn [c|] j ok jk cr f]; reflexivity.
Qed.

(** After a search the data has no bytes to skip. *)
Lemma skip_junk_at_frame (s : state) :
  find_next_frame (data (skip_junk s)) <= 0.
Proof.
  destruct (Z_le_gt_dec (find_next_frame (data s)) 0) as [H|H].
  - rewrite skip_junk_none by exact H. exact H.
  - rewrite skip_junk_found by lia. cbn [data].
    unfold find_next_frame in *.
    destruct (find_index (data s) xfe) as (Hi & _); [lia|].
    destruct (index_slice_from _ _ _ Hi) as (t & ->). simpl. lia.
Qed.

(** No pass writes a packet with flag 0 or 1. *)
Lemma all_junk_final (input : bytes) :
  all_junk (final_state (convert_file input)).
Proof.
  rewrite final_state_convert_file.
  apply (while_not_done_invariant all_junk).
  - intros s Hs. exact Hs.
  - intros s (Hf & Hok & Hcrc).
    destruct (skip_junk_fields s) as (_ & _ & Hok' & Hcrc').
    split; [|split; congruence].
    destruct (Z_le_gt_dec (find_next_frame (data s)) 0) as [H|H].
    + rewrite skip_junk_none by exact H. exact Hf.
    + rewrite skip_junk_found by lia. cbn [pcap_file].
      apply Forall_app. split; [exact Hf|]. repeat constructor.
  - intros s s' Hs Htry.
    destruct (try_packet_cases s)
      as [(e & _ & H)|[(h & _ & _ & H)|(h & b & _ & _ & H)]];
      rewrite H in Htry; try discriminate; injection Htry as <-; exact Hs.
  - repeat split. constructor.
Qed.

(** The loop, pass by pass: [P] holds between passes, [Q] in the middle of
    a pass, and [R] is what both leave for the state the loop ends in. *)
Lemma while_not_done_passes (P Q R : state -> Prop) :
  (forall s, P s -> done s = false -> Q (searched s)) ->
  (forall s s', Q s -> try_packet s = Next s' -> P s') ->
  (forall s, P s -> R s) ->
  (forall s, Q s -> R s) ->
  forall fuel s, P s -> R (end_state (while_not_done fuel s)).
Proof.
  intros Hmid Hnext HP HQ.
  induction fuel as [|fuel IH]; intros s Hs; simpl.
  - destruct (done s); apply HP, Hs.
  - destruct (done s) eqn:Hd; [apply HP, Hs|].
    pose proof (Hmid s Hs Hd) as Hq.
    unfold loop_body. fold (searched s).
    destruct (try_packet_cases (searched s))
      as [(e & _ & H)|[(h & _ & _ & H)|(h & b & _ & _ & H)]];
      rewrite H.
    + simpl. apply HQ, Hq.
    + apply IH. exact (Hnext _ _ Hq H).
    + apply IH. exact (Hnext _ _ Hq H).
Qed.

Lemma count_flag_app (flag : Z) (f g : list packet) :
  count_flag flag (f ++ g) = count_flag flag f + count_flag flag g.
Proof.
  unfold count_flag, len. rewrite filter_app, length_app. lia.
Qed.

Lemma emitted_bytes_app (f g : list packet) :
  emitted_bytes (f ++ g) = emitted_bytes f + emitted_bytes g.
Proof.
  unfold emitted_bytes. induction f as [|p f IH]; simpl; [reflexivity|].
  rewrite IH. lia.
Qed.

Lemma emitted_bytes_one (p : packet) : emitted_bytes [p] = len (datum_of p).
Proof. unfold emitted_bytes. cbn [fold_right]. lia. Qed.

Lemma emitted_bytes_nonneg (f : list packet) : 0 <= emitted_bytes f.
Proof.
  unfold emitted_bytes. induction f as [|p f IH]; simpl; [lia|].
  pose proof (len_nonneg (datum_of p)). lia.
Qed.

Lemma emitted_bytes_bound (f : list packet) (p : packet) :
  In p f -> len (datum_of p) <= emitted_bytes f.
Proof.
  unfold emitted_bytes. induction f as [|q f IH]; simpl; [intros []|].
  intros [->|H].
  - pose proof (emitted_bytes_nonneg f). unfold emitted_bytes in *. lia.
  - specialize (IH H). pose proof (len_nonneg (datum_of q)). lia.
Qed.

Lemma counted_skip_junk (s : state) : counted s -> counted (skip_junk s).
Proof.
  intros (Hj & Ho & Hc & Hf).
  destruct (Z_le_gt_dec (find_next_frame (data s)) 0) as [H|H].
  - rewrite skip_junk_none by exact H. repeat split; assumption.
  - rewrite skip_junk_found by lia. unfold counted.
    cbn [cnt_junk cnt_ok cnt_crc pcap_file]. rewrite !count_flag_app.
    repeat split; try (unfold count_flag at 2; simpl; unfold len; simpl; lia).
    apply Forall_app. split; [exact Hf|].
    constructor; [|constructor]. split; [auto|reflexivity].
Qed.

Lemma counted_try_packet (s s' : state) :
  counted s -> try_packet s = Next s' -> counted s'.
Proof.
  intros (Hj & Ho & Hc & Hf) Htry.
  destruct (try_packet_cases s)
    as [(e & _ & H)|[(h & _ & _ & H)|(h & b & _ & _ & H)]];
    rewrite H in Htry; try discriminate; injection Htry as <-;
    repeat split; assumption.
Qed.

Lemma counted_final (input : bytes) :
  counted (final_state (convert_file input)).
Proof.
  rewrite final_state_convert_file.
  apply (while_not_done_invariant counted).
  - intros s Hs. exact Hs.
  - apply counted_skip_junk.
  - apply counted_try_packet.
  - unfold counted, count_flag. simpl. repeat split; constructor.
Qed.

Lemma numbers_snoc (f : list packet) (n flag l : Z) (d : bytes) :
  1 <= n ->
  Forall (fun p => 1 <= number_of p <= n) f ->
  StronglySorted Z.le (map number_of f) ->
  Forall (fun p => 1 <= number_of p <= n) (f ++ [((n, flag, l), d)]) /\
  StronglySorted Z.le (map number_of (f ++ [((n, flag, l), d)])).
Proof.
  intros Hn Hf Hs. split.
  - apply Forall_app. split; [exact Hf|].
    constructor; [|constructor]. unfold number_of. simpl. lia.
  - rewrite map_app. simpl. unfold number_of at 2. simpl.
    induction f as [|p f IH]; simpl.
    + constructor; constructor.
    + inversion Hf as [|? ? Hp Hf']; subst.
      inversion Hs as [|? ? Hs' Hall]; subst.
      constructor; [apply IH; assumption|].
      apply Forall_app. split; [exact Hall|].
      constructor; [lia|constructor].
Qed.

Lemma numbers_ok_weaken (f : list packet) (n m : Z) :
  n <= m ->
  Forall (fun p => 1 <= number_of p <= n) f ->
  Forall (fun p => 1 <= number_of p <= m) f.
Proof.
  intros Hnm. apply Forall_impl. intros p Hp. lia.
Qed.

Lemma numbers_ok_searched (s : state) :
  numbers_ok s -> numbers_ok (searched s) /\ 1 <= i (searched s).
Proof.
  intros (Hi & Hf & Hs). unfold searched.
  assert (Forall (fun p => 1 <= number_of p <= i s + 1) (pcap_file s)) as Hf'
    by (apply (numbers_ok_weaken _ (i s)); [lia|exact Hf]).
  destruct (Z_le_gt_dec (find_next_frame (data (set_i (i s + 1) s))) 0) as [H|H].
  - rewrite skip_junk_none by exact H. unfold numbers_ok. cbn [set_i i pcap_file].
    repeat split; try assumption; lia.
  - rewrite skip_junk_found by lia. unfold numbers_ok. cbn [set_i i pcap_file].
    destruct (numbers_snoc (pcap_file s) (i s + 1) 3
                (len match skipped_char s with
                     | Some c =>
                         c :: slice_to (data s) (find_next_frame (data s))
                     | None => junk s
                     end)
                match skipped_char s with
                | Some c => c :: slice_to (data s) (find_next_frame (data s))
                | None => junk s
                end) as (H1 & H2); try assumption; try lia.
    cbn [skipped_char data junk].
    repeat split; try assumption; lia.
Qed.

Lemma numbers_ok_try_packet (s s' : state) :
  numbers_ok s /\ 1 <= i s -> try_packet s = Next s' -> numbers_ok s'.
Proof.
  intros ((Hi & Hf & Hs) & H1) Htry.
  destruct (try_packet_cases s)
    as [(e & _ & H)|[(h & _ & _ & H)|(h & b & _ & _ & H)]];
    rewrite H in Htry; try discriminate; injection Htry as <-;
    repeat split; assumption.
Qed.

Lemma numbers_ok_final (input : bytes) :
  numbers_ok (final_state (convert_file input)).
Proof.
  rewrite final_state_convert_file.
  apply (while_not_done_passes numbers_ok
           (fun s => numbers_ok s /\ 1 <= i s) numbers_ok).
  - intros s Hs _. apply numbers_ok_searched, Hs.
  - apply numbers_ok_try_packet.
  - auto.
  - intros s [Hs _]. exact Hs.
  - unfold numbers_ok. simpl. repeat split; try constructor. lia.
Qed.

Lemma paced_final (input : bytes) :
  0 <= i (final_state (convert_file input)) /\
  i (final_state (convert_file input))
  + len (data (final_state (convert_file input))) <= len input + 1.
Proof.
  rewrite final_state_convert_file.
  apply (while_not_done_passes (paced input)
           (fun s => done s = false /\ 1 <= i s /\
                     i s + len (data s) <= len input + 1)
           (fun s => 0 <= i s /\ i s + len (data s) <= len input + 1)).
  - intros s (Hi & Hd & _) Hdone. specialize (Hd Hdone). unfold searched.
    destruct (skip_junk_data_length (set_i (i s + 1) s)) as (Hlen & Hdn).
    destruct (skip_junk_fields (set_i (i s + 1) s)) as (Hi' & _).
    rewrite Hdn, Hi'. cbn [set_i done i data] in *. unfold len in *.
    repeat split; try assumption; lia.
  - intros s s' (Hdone & Hi & Hb) Htry.
    destruct (try_packet_cases s)
      as [(e & _ & H)|[(h & _ & _ & H)|(h & b & Hh & _ & H)]];
      rewrite H in Htry; try discriminate; injection Htry as <-.
    + unfold paced. cbn [set_done i done data].
      repeat split; try lia; try discriminate.
    + destruct (header_fields _ _ Hh) as (_ & _ & Hlen & _).
      unfold paced, resynced. cbn [i done data].
      rewrite len_slice_from by lia. repeat split; lia.
  - intros s (Hi & _ & Hb). split; assumption.
  - intros s (_ & Hi & Hb). split; [lia|assumption].
  - unfold paced. simpl. repeat split; lia.
Qed.

Lemma accounted_skip_junk (input : bytes) (s : state) :
  accounted input s -> accounted input (skip_junk s).
Proof.
  intros (Hsum & Hfresh). split; [|right; right; apply skip_junk_at_frame].
  destruct (Z_le_gt_dec (find_next_frame (data s)) 0) as [H|H].
  - rewrite skip_junk_none by exact H. exact Hsum.
  - rewrite skip_junk_found by lia.
    pose proof (find_range (data s) xfe) as Hr. unfold find_next_frame in *.
    cbn [pcap_file data]. unfold pending_bytes in *. cbn [skipped_char].
    rewrite emitted_bytes_app, len_slice_from by lia.
    rewrite emitted_bytes_one. unfold datum_of. cbn [snd].
    destruct (skipped_char s) as [c|] eqn:Hsk.
    + rewrite len_cons, len_slice_to by lia. lia.
    + destruct Hfresh as [Hj|[Hk|Hf]];
        [|congruence|unfold find_next_frame in Hf; lia].
      rewrite Hj. unfold len at 1. simpl. lia.
Qed.

Lemma accounted_try_packet (input : bytes) (s s' : state) :
  accounted input s -> try_packet s = Next s' -> accounted input s'.
Proof.
  intros (Hsum & Hfresh) Htry.
  destruct (try_packet_cases s)
    as [(e & _ & H)|[(h & _ & _ & H)|(h & b & Hh & _ & H)]];
    rewrite H in Htry; try discriminate; injection Htry as <-.
  - split; [exact Hsum|exact Hfresh].
  - destruct (header_fields _ _ Hh) as (_ & _ & Hlen & _).
    split; [|right; left; discriminate].
    unfold resynced, pending_bytes in *. cbn [pcap_file skipped_char data].
    rewrite len_slice_from by lia. destruct (skipped_char s); lia.
Qed.

Lemma accounted_final (input : bytes) :
  accounted input (final_state (convert_file input)).
Proof.
  rewrite final_state_convert_file.
  apply (while_not_done_invariant (accounted input)).
  - intros s Hs. exact Hs.
  - apply accounted_skip_junk.
  - apply accounted_try_packet.
  - split; [|left; reflexivity].
    unfold emitted_bytes, pending_bytes. simpl. lia.
Qed.

Lemma junk_shaped_skip_junk (s : state) :
  junk_shaped s -> junk_shaped (skip_junk s).
Proof.
  intros (Hj & Hsk & Hf).
  destruct (Z_le_gt_dec (find_next_frame (data s)) 0) as [H|H].
  - rewrite skip_junk_none by exact H. repeat split; assumption.
  - rewrite skip_junk_found by lia.
    assert (junk_shape match skipped_char s with
                       | Some c =>
                           c :: slice_to (data s) (find_next_frame (data s))
                       | None => junk s
                       end) as Hnew.
    { destruct Hsk as [-> | ->]; [exact Hj|].
      right. eexists. split; [reflexivity|].
      unfold find_next_frame in *. apply find_index. lia. }
    unfold junk_shaped. cbn [junk skipped_char pcap_file].
    split; [exact Hnew|]. split; [left; reflexivity|].
    apply Forall_app. split; [exact Hf|].
    constructor; [|constructor]. intros _. exact Hnew.
Qed.

Lemma junk_shaped_try_packet (s s' : state) :
  junk_shaped s -> try_packet s = Next s' -> junk_shaped s'.
Proof.
  intros (Hj & Hsk & Hf) Htry.
  destruct (try_packet_cases s)
    as [(e & _ & H)|[(h & _ & _ & H)|(h & b & _ & _ & H)]];
    rewrite H in Htry; try discriminate; injection Htry as <-.
  - repeat split; assumption.
  - unfold junk_shaped, resynced. cbn [junk skipped_char pcap_file].
    repeat split; auto.
Qed.

Lemma junk_shaped_final (input : bytes) :
  junk_shaped (final_state (convert_file input)).
Proof.
  rewrite final_state_convert_file.
  apply (while_not_done_invariant junk_shaped).
  - intros s Hs. exact Hs.
  - apply junk_shaped_skip_junk.
  - apply junk_shaped_try_packet.
  - unfold junk_shaped. simpl. repeat split; auto. left. reflexivity.
Qed.

Lemma stopped_loop (fuel : nat) (s : state) :
  done s = false -> stopped (end_state (while_not_done fuel s)).
Proof.
  intros Hd.
  apply (while_not_done_passes (fun s => done s = false \/ stopped s)
           (fun s => done s = false) stopped).
  - intros s0 _ Hd0. unfold searched.
    destruct (skip_junk_fields (set_i (i s0 + 1) s0)) as (_ & -> & _).
    exact Hd0.
  - intros s0 s' Hd0 Htry.
    destruct (try_packet_cases s0)
      as [(e & _ & H)|[(h & Hh & Hx & H)|(h & b & _ & _ & H)]];
      rewrite H in Htry; try discriminate; injection Htry as <-.
    + right. intros _. exists h. split; assumption.
    + left. exact Hd0.
  - intros s0 [H|H]; [|exact H]. intros Hc. congruence.
  - intros s0 H Hc. congruence.
  - left. exact Hd.
Qed.

(** More fuel than the loop needs changes nothing. *)
Lemma while_not_done_more_fuel (fuel extra : nat) (s : state) :
  (forall s', while_not_done fuel s <> OutOfFuel s') ->
  while_not_done (fuel + extra) s = while_not_done fuel s.
Proof.
  revert s. induction fuel as [|fuel IH]; intros s H.
  - simpl in *. destruct (done s) eqn:Hd.
    + destruct extra; simpl; rewrite Hd; reflexivity.
    + exfalso. apply (H s). reflexivity.
  - simpl in *. destruct (done s); [reflexivity|].
    destruct (loop_body s) as [s1|e s1]; [|reflexivity].
    apply IH. exact H.
Qed.

(** ** What every run of [convert_file] keeps *)

Lemma parse_header_raises (d : bytes) (e : exn) :
  parse_header d = Raise e -> e = FieldError \/ e = ConstError.
Proof.
  unfold parse_header, slice. simpl.
  destruct d as [|m [|pl [|sq [|sy [|co [|ms rest]]]]]]; simpl;
    try destruct (ord m =? MAVLINK_MAGIC);
    intros H; inversion H; auto.
Qed.

Lemma passes_counted (fuel : nat) (s : state) :
  1 <= i s -> 1 <= i (end_state (while_not_done fuel s)).
Proof.
  apply (while_not_done_invariant (fun s => 1 <= i s)).
  - intros s0 H. simpl. lia.
  - intros s0 H. destruct (skip_junk_fields s0) as (-> & _). exact H.
  - intros s0 s' H Htry.
    destruct (try_packet_cases s0)
      as [(e & _ & Hc)|[(h & _ & _ & Hc)|(h & b & _ & _ & Hc)]];
      rewrite Hc in Htry; try discriminate; injection Htry as <-; exact H.
Qed.

Lemma first_pass (input : bytes) :
  end_state (while_not_done (S (length input)) (init input)) =
  match try_packet (searched (init input)) with
  | Next s' => end_state (while_not_done (length input) s')
  | Uncaught e s' => s'
  end.
Proof.
  simpl. unfold loop_body. fold (searched (init input)).
  destruct (try_packet (searched (init input))); reflexivity.
Qed.

(** X3.  The loop of [convert_file] ends on every input: the run returns
    with its statistics or by an exception, after at least one pass and at
    most one pass more than the input has bytes, and allowing the loop more
    passes than that changes nothing. *)
Theorem convert_file_ends (input : bytes) :
  ((exists stats s, convert_file input = Completed stats s) \/
   (exists e s, convert_file input = Crashed e s)) /\
  1 <= i (final_state (convert_file input)) <= len input + 1 /\
  (forall fuel, (length input < fuel)%nat ->
                convert_file_fuel fuel input = convert_file input).
Proof.
  split; [apply convert_file_returns|]. split.
  - split.
    + rewrite final_state_convert_file, first_pass.
      assert (1 <= i (searched (init input))) as H1.
      { unfold searched.
        destruct (skip_junk_fields (set_i (i (init input) + 1) (init input)))
          as (-> & _). simpl. lia. }
      destruct (try_packet_cases (searched (init input)))
        as [(e & _ & Hc)|[(h & _ & _ & Hc)|(h & b & _ & _ & Hc)]];
        rewrite Hc; try exact H1; apply passes_counted; exact H1.
    + destruct (paced_final input) as (_ & H).
      pose proof (len_nonneg (data (final_state (convert_file input)))). lia.
  - intros fuel Hfuel. unfold convert_file, convert_file_fuel.
    replace fuel with (S (length input) + (fuel - S (length input)))%nat by lia.
    rewrite while_not_done_more_fuel; [reflexivity|].
    apply while_not_done_fuel. simpl. lia.
Qed.

Lemma convert_file_ends_witness :
  (length leading_junk_input < 20)%nat /\
  convert_file_fuel 20 leading_junk_input = convert_file leading_junk_input.
Proof.
  assert (length leading_junk_input < 20)%nat as H by (simpl; lia).
  split; [exact H|].
  exact (proj2 (proj2 (convert_file_ends leading_junk_input)) 20%nat H).
Defined.

(** X4.  On an input that holds no magic byte the first pass raises and
    nothing is written: [FieldError] for the empty input, [ConstError] for
    any other. *)
Theorem no_magic_no_capture (input : bytes) :
  ~ In xfe input ->
  convert_file input =
  Crashed (match input with
           | [] => FieldError
           | _ :: _ => ConstError
           end)
          (set_i 1 (init input)).
Proof.
  intros Hno. unfold convert_file, convert_file_fuel. simpl.
  unfold loop_body.
  assert (skip_junk (set_i (i (init input) + 1) (init input))
          = set_i 1 (init input)) as ->.
  { apply skip_junk_none. simpl. unfold find_next_frame.
    rewrite (proj2 (find_absent input xfe) Hno). lia. }
  unfold try_packet. cbn [set_i init data].
  destruct input as [|b t]; [reflexivity|].
  unfold parse_header, slice. simpl.
  destruct (ord b =? MAVLINK_MAGIC) eqn:E; [|reflexivity].
  apply ord_magic in E. subst b. exfalso. apply Hno. left. reflexivity.
Qed.

Lemma no_magic_no_capture_witness :
  ~ In xfe [x00; x01; x02] /\
  convert_file [x00; x01; x02] =
  Crashed ConstError (set_i 1 (init [x00; x01; x02])).
Proof.
  assert (~ In xfe [x00; x01; x02]) as H
    by (intros [H|[H|[H|[]]]]; discriminate H).
  split; [exact H|]. exact (no_magic_no_capture [x00; x01; x02] H).
Defined.

(** X5.  An input of fewer than six bytes always makes the first pass
    raise, by [FieldError] or [ConstError], before any frame is looked at:
    no packet with flag 0 or 1 is written. *)
Theorem short_input_raises (input : bytes) :
  len input < 6 ->
  exists e s,
    convert_file input = Crashed e s /\
    (e = FieldError \/ e = ConstError) /\
    i s = 1 /\ cnt_ok s = 0 /\ cnt_crc s = 0 /\
    count_flag 0 (pcap_file s) = 0 /\ count_flag 1 (pcap_file s) = 0.
Proof.
  intros Hlen. unfold convert_file, convert_file_fuel. simpl.
  unfold loop_body. fold (searched (init input)).
  assert (len (data (searched (init input))) < 6) as Hshort.
  { unfold searched.
    destruct (skip_junk_data_length (set_i (i (init input) + 1) (init input)))
      as (H & _).
    change (data (set_i (i (init input) + 1) (init input))) with input in H.
    unfold len in *. lia. }
  assert (counted (searched (init input))) as (_ & Hok & Hcrc & _).
  { apply counted_skip_junk. unfold counted, count_flag. simpl.
    repeat split; constructor. }
  destruct (skip_junk_fields (set_i (i (init input) + 1) (init input)))
    as (Hi & _ & Hok' & Hcrc').
  fold (searched (init input)) in Hi, Hok', Hcrc'. simpl in Hi, Hok', Hcrc'.
  destruct (try_packet_cases (searched (init input)))
    as [(e & He & Hc)|[(h & Hh & _)|(h & b & Hh & _)]];
    try (destruct (header_fields _ _ Hh) as (_ & _ & H6 & _); lia).
  rewrite Hc. exists e, (searched (init input)).
  split; [reflexivity|]. split; [exact (parse_header_raises _ _ He)|].
  repeat split; congruence.
Qed.

Lemma short_input_raises_witness :
  len [x00; xfe; x02] < 6 /\
  exists e s,
    convert_file [x00; xfe; x02] = Crashed e s /\
    (e = FieldError \/ e = ConstError) /\
    i s = 1 /\ cnt_ok s = 0 /\ cnt_crc s = 0 /\
    count_flag 0 (pcap_file s) = 0 /\ count_flag 1 (pcap_file s) = 0.
Proof.
  assert (len [x00; xfe; x02] < 6) as H by (unfold len; simpl; lia).
  split; [exact H|]. exact (short_input_raises [x00; xfe; x02] H).
Defined.

Lemma exhausted_done (fuel : nat) (s0 s : state) :
  while_not_done fuel s0 = Exhausted s -> done s = true.
Proof.
  revert s0. induction fuel as [|fuel IH]; intros s0; simpl.
  - destruct (done s0) eqn:Hd; [|discriminate].
    intros H. injection H as <-. exact Hd.
  - destruct (done s0) eqn:Hd.
    + intros H. injection H as <-. exact Hd.
    + destruct (loop_body s0) as [s1|e s1]; [apply IH|discriminate].
Qed.

Lemma completed_inv (input : bytes) (stats : RunStatistics) (s : state) :
  convert_file input = Completed stats s ->
  while_not_done (S (length input)) (init input) = Exhausted s /\
  statistics s = Ok stats /\
  s = final_state (convert_file input).
Proof.
  intros H. split; [|split]; [| |rewrite H; reflexivity];
    unfold convert_file, convert_file_fuel in H;
    destruct (while_not_done (S (length input)) (init input)) as [s1|e s1|s1];
    try discriminate;
    destruct (statistics s1) as [st|e] eqn:Hst; try discriminate;
    injection H as <- <-; [reflexivity|exact Hst].
Qed.

(** What line 217 has computed when it does not raise. *)
Lemma statistics_Ok (s : state) (stats : RunStatistics) :
  statistics s = Ok stats ->
  cnt_junk s + cnt_ok s + cnt_crc s <> 0 /\
  valid_packets stats = cnt_ok s /\
  crc_errors stats = cnt_crc s /\
  junk_fragments stats = cnt_junk s /\
  exists part total,
    python_float (cnt_junk s + cnt_crc s) = Ok part /\
    python_float (cnt_junk s + cnt_ok s + cnt_crc s) = Ok total /\
    junk_percent stats = PrimFloat.div (PrimFloat.mul 100%float part) total.
Proof.
  unfold statistics.
  destruct (python_float (cnt_junk s + cnt_crc s)) as [part|]; [|discriminate].
  destruct (python_float (cnt_junk s + cnt_ok s + cnt_crc s)) as [total|];
    [|discriminate].
  destruct (cnt_junk s + cnt_ok s + cnt_crc s =? 0) eqn:E; [discriminate|].
  apply Z.eqb_neq in E. intros H. injection H as <-.
  cbn [valid_packets crc_errors junk_fragments junk_percent].
  repeat (split; [assumption || reflexivity|]).
  exists part, total. repeat split; reflexivity.
Qed.

Lemma count_flags_total (f : list packet) :
  Forall (fun p => (flags_of p = 0 \/ flags_of p = 1 \/ flags_of p = 3) /\
                   length_of p = len (datum_of p)) f ->
  count_flag 0 f + count_flag 1 f + count_flag 3 f = len f.
Proof.
  unfold count_flag, len. induction 1 as [|p f [Hp _] _ IH]; [reflexivity|].
  cbn [filter].
  destruct Hp as [Hp | [Hp | Hp]]; rewrite Hp; cbn [Z.eqb Pos.eqb];
    cbn [length]; lia.
Qed.

(** X6.  A run that returns normally has not used up its input: the data
    left starts with the magic, holds a whole header and at least six
    bytes, and is no longer than the packet that this header declares, so
    at most 263 bytes; and at least one packet was written. *)
Theorem completed_run_leaves_tail
    (input : bytes) (stats : RunStatistics) (s : state) :
  convert_file input = Completed stats s ->
  done s = true /\
  pcap_file s <> [] /\
  exists h t,
    parse_header (data s) = Ok h /\
    data s = xfe :: t /\
    6 <= len (data s) <= 6 + plength h + 2 /\
    len (data s) <= 263.
Proof.
  intros H. destruct (completed_inv _ _ _ H) as (Hw & Hst & Hfin).
  pose proof (exhausted_done _ _ _ Hw) as Hd.
  split; [exact Hd|]. split.
  - intros Hnil. pose proof (counted_final input) as (Hj & Ho & Hc & _).
    rewrite <- Hfin, Hnil in Hj, Ho, Hc.
    destruct (statistics_Ok _ _ Hst) as (Hne & _).
    apply Hne. rewrite Hj, Ho, Hc. reflexivity.
  - pose proof (stopped_loop (S (length input)) (init input) eq_refl) as Hs.
    rewrite Hw in Hs. cbn [end_state] in Hs.
    destruct (Hs Hd) as (h & Hh & Hnone).
    destruct (header_fields _ _ Hh) as (Hpl & _ & H6 & _).
    pose proof (parse_header_Ok _ _ Hh) as (pl & sq & sy & co & ms & t & Hdata & _).
    exists h. eexists. split; [exact Hh|]. split; [exact Hdata|].
    unfold total_length, index in Hnone.
    destruct (6 + plength h + 2 <? 0) eqn:E; [apply Z.ltb_lt in E; lia|].
    apply nth_error_None in Hnone. unfold len in *. lia.
Qed.

Lemma completed_run_leaves_tail_witness :
  convert_file leading_junk_input =
    Completed (mk_stats 0 0 1 100%float)
      (mk_state lone_header_input 1 true None [] 0 1 0 [((1, 3, 0), [])]) /\
  exists h t,
    parse_header lone_header_input = Ok h /\
    lone_header_input = xfe :: t /\
    6 <= len lone_header_input <= 6 + plength h + 2.
Proof.
  assert (convert_file leading_junk_input =
            Completed (mk_stats 0 0 1 100%float)
              (mk_state lone_header_input 1 true None [] 0 1 0
                 [((1, 3, 0), [])])) as H by (vm_compute; reflexivity).
  split; [exact H|].
  destruct (completed_run_leaves_tail _ _ _ H) as (_ & _ & h & t & Hh & Ht & Hl & _).
  exists h, t. split; [exact Hh|]. split; [exact Ht|exact Hl].
Defined.

(** X7.  At the end of every run, however it ends, the three counters are
    the numbers of packets written with flag 3, 0 and 1, every packet has
    one of these flags, and the length handed to the capture with a packet
    is the length of its bytes. *)
Theorem counters_count_packets (input : bytes) :
  cnt_junk (final_state (convert_file input)) =
    count_flag 3 (pcap_file (final_state (convert_file input))) /\
  cnt_ok (final_state (convert_file input)) =
    count_flag 0 (pcap_file (final_state (convert_file input))) /\
  cnt_crc (final_state (convert_file input)) =
    count_flag 1 (pcap_file (final_state (convert_file input))) /\
  cnt_junk (final_state (convert_file input))
  + cnt_ok (final_state (convert_file input))
  + cnt_crc (final_state (convert_file input)) =
    len (pcap_file (final_state (convert_file input))) /\
  Forall (fun p => (flags_of p = 0 \/ flags_of p = 1 \/ flags_of p = 3) /\
                   length_of p = len (datum_of p))
         (pcap_file (final_state (convert_file input))).
Proof.
  pose proof (counted_final input) as (Hj & Ho & Hc & Hf).
  repeat split; try assumption.
  rewrite Hj, Ho, Hc. pose proof (count_flags_total _ Hf). lia.
Qed.

(** X8.  The statistics of a run that returns normally are the numbers of
    packets written with flag 0, 1 and 3; they add up to the number of
    packets, which is not zero; no packet with flag 0 or 1 is among them;
    and the percentage is the double that line 217 computes from the
    counters: 100.0 times the float of junk and checksum errors, divided by
    the float of the total. *)
Theorem statistics_of_completed_run
    (input : bytes) (stats : RunStatistics) (s : state) :
  convert_file input = Completed stats s ->
  valid_packets stats = count_flag 0 (pcap_file s) /\
  crc_errors stats = count_flag 1 (pcap_file s) /\
  junk_fragments stats = count_flag 3 (pcap_file s) /\
  valid_packets stats + crc_errors stats + junk_fragments stats
    = len (pcap_file s) /\
  0 < len (pcap_file s) /\
  valid_packets stats = 0 /\ crc_errors stats = 0 /\
  exists part total,
    python_float (junk_fragments stats + crc_errors stats) = Ok part /\
    python_float (len (pcap_file s)) = Ok total /\
    junk_percent stats = PrimFloat.div (PrimFloat.mul 100%float part) total.
Proof.
  intros H. destruct (completed_inv _ _ _ H) as (_ & Hst & Hfin).
  pose proof (counted_final input) as (Hj & Ho & Hc & Hf).
  pose proof (all_junk_final input) as (_ & Hok0 & Hcrc0).
  rewrite <- Hfin in Hj, Ho, Hc, Hf, Hok0, Hcrc0.
  pose proof (count_flags_total _ Hf) as Htot.
  assert (0 <= count_flag 3 (pcap_file s)) as P3 by apply len_nonneg.
  destruct (statistics_Ok _ _ Hst)
    as (Hne & -> & -> & -> & part & total & Hpart & Htotal & Hpct).
  repeat (split; [lia|]).
  exists part, total. split; [exact Hpart|]. split; [|exact Hpct].
  rewrite <- Htot, <- Hj, <- Ho, <- Hc.
  replace (cnt_ok s + cnt_crc s + cnt_junk s)
    with (cnt_junk s + cnt_ok s + cnt_crc s) by lia.
  exact Htotal.
Qed.

Lemma statistics_of_completed_run_witness :
  convert_file leading_junk_input =
    Completed (mk_stats 0 0 1 100%float)
      (mk_state lone_header_input 1 true None [] 0 1 0 [((1, 3, 0), [])]) /\
  exists part total,
    python_float (1 + 0) = Ok part /\ python_float 1 = Ok total /\
    100%float = PrimFloat.div (PrimFloat.mul 100%float part) total.
Proof.
  assert (convert_file leading_junk_input =
            Completed (mk_stats 0 0 1 100%float)
              (mk_state lone_header_input 1 true None [] 0 1 0
                 [((1, 3, 0), [])])) as H by (vm_compute; reflexivity).
  split; [exact H|].
  exact (proj2 (proj2 (proj2 (proj2 (proj2 (proj2 (proj2
           (statistics_of_completed_run _ _ _ H)))))))).
Defined.

(** X9.  The sequence numbers of the packets of a run never go down from
    one packet to the next, and each is the number of the pass that wrote
    the packet: at least 1, at most the number of passes made, which is at
    most one more than the input has bytes. *)
Theorem sequence_numbers_ordered (input : bytes) :
  StronglySorted Z.le
    (map number_of (pcap_file (final_state (convert_file input)))) /\
  Forall (fun p => 1 <= number_of p <= i (final_state (convert_file input)))
         (pcap_file (final_state (convert_file input))) /\
  i (final_state (convert_file input)) <= len input + 1.
Proof.
  pose proof (numbers_ok_final input) as (_ & Hf & Hs).
  destruct (paced_final input) as (_ & Hb).
  pose proof (len_nonneg (data (final_state (convert_file input)))).
  repeat split; try assumption. lia.
Qed.


(** X11.  A skipped character is always the magic byte, and every junk
    packet is empty or is the magic byte followed by bytes that are not the
    magic. *)
Theorem junk_packets_shape (input : bytes) :
  (skipped_char (final_state (convert_file input)) = None \/
   skipped_char (final_state (convert_file input)) = Some xfe) /\
  Forall (fun p => flags_of p = 3 ->
                   datum_of p = [] \/
                   exists t, datum_of p = xfe :: t /\ ~ In xfe t)
         (pcap_file (final_state (convert_file input))).
Proof.
  pose proof (junk_shaped_final input) as (_ & Hsk & Hf).
  split; assumption.
Qed.

(** ** The capture of a run *)

(** X13.  For an input of fewer than [2**32 - 1] bytes every packet of the
    run fits the 32-bit fields of a record, so [pcap.write] takes them all
    without [struct.error], and [pcap.read] gives them all back, in
    order. *)
Theorem capture_of_run_is_written (e : pcap.endian) (input : bytes) :
  len input < 2 ^ 32 - 1 ->
  exists body,
    pcap.write_all (pcap.mk e []) (pcap_file (final_state (convert_file input)))
      = Ok (pcap.mk e body) /\
    forall fuel,
      (length (pcap_file (final_state (convert_file input))) < fuel)%nat ->
      pcap.iter fuel (pcap.mk e body) =
      Some (pcap_file (final_state (convert_file input)), None).
Proof.
  intros Hlen.
  apply (write_all_iter e). apply Forall_forall. intros p Hin.
  pose proof (counted_final input) as (_ & _ & _ & Hf).
  pose proof (numbers_ok_final input) as (_ & Hn & _).
  destruct (paced_final input) as (_ & Hi).
  pose proof (accounted_final input) as (Hsum & _).
  pose proof (len_nonneg (data (final_state (convert_file input)))) as Hd.
  pose proof (emitted_bytes_bound _ _ Hin) as Hb.
  rewrite Forall_forall in Hf, Hn.
  destruct (Hf p Hin) as (Hflag & Hl). specialize (Hn p Hin).
  assert (0 <= pending_bytes (final_state (convert_file input))) as Hp
    by (unfold pending_bytes;
        destruct (skipped_char (final_state (convert_file input))); lia).
  unfold fits_packet. repeat split; try lia; try assumption.
Qed.

Lemma capture_of_run_is_written_witness :
  len junk_then_frame_input < 2 ^ 32 - 1 /\
  exists body,
    pcap.write_all (pcap.mk pcap.big [])
      (pcap_file (final_state (convert_file junk_then_frame_input)))
      = Ok (pcap.mk pcap.big body).
Proof.
  assert (len junk_then_frame_input < 2 ^ 32 - 1) as H
    by (unfold len; simpl; lia).
  split; [exact H|].
  destruct (capture_of_run_is_written pcap.big junk_then_frame_input H)
    as (body & Hw & _).
  exists body. exact Hw.
Defined.

(** ** [pcap.write], [pcap.read] and [pcap.__iter__] on any stream *)

Lemma stream_read_header (hdr rest : bytes) :
  len hdr = 16 ->
  pcap.stream_read (hdr ++ rest) 16 = (hdr, rest).
Proof.
  intros H. unfold pcap.stream_read.
  rewrite slice_to_app, slice_from_app by (symmetry; exact H). reflexivity.
Qed.

(** X14.  What [read] makes of a record that [write] has written: the
    time stamp fields come back as written, but the header field that
    [write] fills with the [length] of the packet is the number of bytes
    that [read] takes as data, and the length that [read] returns is the
    number of bytes that [write] was given. *)
Theorem read_after_write
    (e : pcap.endian) (number flags length : Z) (datum before after : bytes)
    (w : pcap.t) :
  pcap.write (pcap.mk e before) ((number, flags, length), datum) = Ok w ->
  exists hdr,
    w = pcap.mk e (before ++ hdr ++ datum) /\
    len hdr = 16 /\
    pcap.unpack_IIII e hdr = Ok (number, flags, length, len datum) /\
    pcap.read (pcap.mk e (hdr ++ datum ++ after)) =
    Ok (Some ((number, flags, len datum), slice_to (datum ++ after) length),
        pcap.mk e (slice_from (datum ++ after) length)).
Proof.
  intros Hw. pose proof (write_Ok_fits _ _ _ Hw) as (Hn & Hf & Hl & Hd).
  unfold number_of, flags_of, length_of, datum_of in *. cbn [fst snd] in *.
  pose proof (len_nonneg datum) as Hpos.
  destruct (unpack_pack_IIII e number flags length (len datum))
    as (hdr & Hpack & Hlen & Hunpack); try lia.
  exists hdr. unfold pcap.write in Hw. cbn [pcap._endian pcap.stream] in Hw.
  rewrite Hpack in Hw. injection Hw as <-.
  split; [rewrite app_assoc; reflexivity|]. split; [exact Hlen|].
  split; [exact Hunpack|].
  unfold pcap.read. cbn [pcap._endian pcap.stream].
  rewrite stream_read_header by exact Hlen. rewrite Hunpack.
  destruct hdr as [|h0 hdr']; [discriminate Hlen|]. reflexivity.
Qed.

Lemma read_after_write_witness :
  pcap.write (pcap.mk pcap.little []) ((7, 3, 1), [x0a; x0b; x0c])
    = Ok (pcap.mk pcap.little
            [x07; x00; x00; x00; x03; x00; x00; x00;
             x01; x00; x00; x00; x03; x00; x00; x00; x0a; x0b; x0c]) /\
  exists hdr,
    pcap.read (pcap.mk pcap.little (hdr ++ [x0a; x0b; x0c] ++ [])) =
    Ok (Some ((7, 3, 3), [x0a]), pcap.mk pcap.little [x0b; x0c]).
Proof.
  assert (pcap.write (pcap.mk pcap.little []) ((7, 3, 1), [x0a; x0b; x0c])
          = Ok (pcap.mk pcap.little
                  [x07; x00; x00; x00; x03; x00; x00; x00;
                   x01; x00; x00; x00; x03; x00; x00; x00; x0a; x0b; x0c]))
    as H by (vm_compute; reflexivity).
  split; [exact H|].
  destruct (read_after_write pcap.little 7 3 1 [x0a; x0b; x0c] [] [] _ H)
    as (hdr & _ & _ & _ & Hread).
  exists hdr. exact Hread.
Defined.

Lemma pack_I_raises (e : pcap.endian) (n : Z) :
  ~ 0 <= n < 2 ^ 32 -> pcap.pack_I e n = Raise StructError.
Proof.
  intros H. unfold pcap.pack_I.
  destruct ((0 <=? n) && (n <? 2 ^ 32)) eqn:E; [|reflexivity].
  apply andb_true_iff in E. destruct E as [E1 E2].
  apply Z.leb_le in E1. apply Z.ltb_lt in E2. lia.
Qed.

(** X15.  [write] appends one record of sixteen bytes and the data when
    the two time stamp fields, the length and the number of bytes of the
    data are all in [[0, 2**32)]; in every other case it raises
    [struct.error]. *)
Theorem write_appends_or_raises
    (self : pcap.t) (number flags length : Z) (datum : bytes) :
  (0 <= number < 2 ^ 32 /\ 0 <= flags < 2 ^ 32 /\ 0 <= length < 2 ^ 32 /\
   len datum < 2 ^ 32 ->
   exists w hdr,
     pcap.write self ((number, flags, length), datum) = Ok w /\
     pcap.stream w = pcap.stream self ++ hdr ++ datum /\
     len hdr = 16 /\
     len (pcap.stream w) = len (pcap.stream self) + 16 + len datum /\
     pcap._endian w = pcap._endian self) /\
  (~ (0 <= number < 2 ^ 32 /\ 0 <= flags < 2 ^ 32 /\ 0 <= length < 2 ^ 32 /\
      len datum < 2 ^ 32) ->
   pcap.write self ((number, flags, length), datum) = Raise StructError).
Proof.
  pose proof (len_nonneg datum) as Hpos. split.
  - intros (Hn & Hf & Hl & Hd).
    destruct (unpack_pack_IIII (pcap._endian self) number flags length
                (len datum)) as (hdr & Hpack & Hlen & _); try lia.
    unfold pcap.write. rewrite Hpack. eexists. exists hdr.
    split; [reflexivity|]. cbn [pcap.stream pcap._endian].
    split; [rewrite app_assoc; reflexivity|]. split; [exact Hlen|].
    split; [|reflexivity]. unfold len in *. rewrite !length_app. lia.
  - intros Hno. unfold pcap.write, pcap.pack_IIII.
    destruct (Z_lt_le_dec number 0) as [H|H];
      [rewrite (pack_I_raises _ number) by lia; reflexivity|].
    destruct (Z_lt_le_dec number (2 ^ 32)) as [H1|H1];
      [|rewrite (pack_I_raises _ number) by lia; reflexivity].
    destruct (pcap.pack_I (pcap._endian self) number); [|reflexivity].
    destruct (Z_lt_le_dec flags 0) as [H2|H2];
      [rewrite (pack_I_raises _ flags) by lia; reflexivity|].
    destruct (Z_lt_le_dec flags (2 ^ 32)) as [H3|H3];
      [|rewrite (pack_I_raises _ flags) by lia; reflexivity].
    destruct (pcap.pack_I (pcap._endian self) flags); [|reflexivity].
    destruct (Z_lt_le_dec length 0) as [H4|H4];
      [rewrite (pack_I_raises _ length) by lia; reflexivity|].
    destruct (Z_lt_le_dec length (2 ^ 32)) as [H5|H5];
      [|rewrite (pack_I_raises _ length) by lia; reflexivity].
    destruct (pcap.pack_I (pcap._endian self) length); [|reflexivity].
    rewrite (pack_I_raises _ (len datum)) by lia. reflexivity.
Qed.

Lemma write_appends_or_raises_witness :
  (0 <= 1 < 2 ^ 32 /\ 0 <= 3 < 2 ^ 32 /\ 0 <= 2 < 2 ^ 32 /\
   len [x00; x00] < 2 ^ 32) /\
  ~ (0 <= 2 ^ 32 < 2 ^ 32 /\ 0 <= 0 < 2 ^ 32 /\ 0 <= 10 < 2 ^ 32 /\
     len sample_frame < 2 ^ 32) /\
  (exists w hdr,
     pcap.write (pcap.mk pcap.little []) ((1, 3, 2), [x00; x00]) = Ok w /\
     pcap.stream w = [] ++ hdr ++ [x00; x00]) /\
  pcap.write (pcap.mk pcap.little []) ((2 ^ 32, 0, 10), sample_frame)
    = Raise StructError.
Proof.
  assert (0 <= 1 < 2 ^ 32 /\ 0 <= 3 < 2 ^ 32 /\ 0 <= 2 < 2 ^ 32 /\
          len [x00; x00] < 2 ^ 32) as H1 by (unfold len; simpl; lia).
  assert (~ (0 <= 2 ^ 32 < 2 ^ 32 /\ 0 <= 0 < 2 ^ 32 /\ 0 <= 10 < 2 ^ 32 /\
             len sample_frame < 2 ^ 32)) as H2 by lia.
  split; [exact H1|]. split; [exact H2|]. split.
  - destruct (proj1 (write_appends_or_raises (pcap.mk pcap.little [])
                       1 3 2 [x00; x00]) H1) as (w & hdr & Hw & Hs & _).
    exists w, hdr. split; [exact Hw|exact Hs].
  - exact (proj2 (write_appends_or_raises (pcap.mk pcap.little [])
                    (2 ^ 32) 0 10 sample_frame) H2).
Defined.

Lemma unpack_IIII_Ok (e : pcap.endian) (s : bytes) (r : Z * Z * Z * Z) :
  pcap.unpack_IIII e s = Ok r -> length s = 16%nat.
Proof.
  intros H.
  do 16 (destruct s as [|? s]; [discriminate H|]).
  destruct s; [reflexivity|discriminate H].
Qed.

Lemma unpack_IIII_raises (e : pcap.endian) (s : bytes) (x : exn) :
  pcap.unpack_IIII e s = Raise x -> x = StructError.
Proof.
  intros H.
  do 16 (destruct s as [|? s]; [simpl in H; congruence|]).
  destruct s; simpl in H; congruence.
Qed.

Lemma unpack_I_nonneg (e : pcap.endian) (b0 b1 b2 b3 : byte) :
  0 <= pcap.unpack_I e b0 b1 b2 b3 < 2 ^ 32.
Proof.
  pose proof (ord_range b0). pose proof (ord_range b1).
  pose proof (ord_range b2). pose proof (ord_range b3).
  unfold pcap.unpack_I. destruct e; lia.
Qed.

Lemma unpack_IIII_total (e : pcap.endian) (s : bytes) :
  length s = 16%nat ->
  exists sec usec caplen length,
    pcap.unpack_IIII e s = Ok (sec, usec, caplen, length) /\
    0 <= caplen < 2 ^ 32.
Proof.
  intros H.
  do 16 (destruct s as [|? s]; [discriminate H|]).
  destruct s; [|discriminate H].
  do 4 eexists. split; [reflexivity|]. apply unpack_I_nonneg.
Qed.

(** X16.  [read] at the end of the stream returns [None]; on a stream that
    ends within the sixteen bytes of a record header it raises
    [struct.error]; and on any longer stream it returns a record, whose
    data are the bytes after the header up to the captured length that the
    header gives, or fewer, without an error, when the stream ends
    before. *)
Theorem read_outcomes (e : pcap.endian) (s : bytes) :
  pcap.read (pcap.mk e []) = Ok (None, pcap.mk e []) /\
  (0 < len s < 16 -> pcap.read (pcap.mk e s) = Raise StructError) /\
  (16 <= len s ->
   exists sec usec caplen length,
     pcap.unpack_IIII e (slice_to s 16) = Ok (sec, usec, caplen, length) /\
     0 <= caplen < 2 ^ 32 /\
     pcap.read (pcap.mk e s) =
     Ok (Some ((sec, usec, length), slice_to (slice_from s 16) caplen),
         pcap.mk e (slice_from (slice_from s 16) caplen)) /\
     len (slice_to (slice_from s 16) caplen) = Z.min caplen (len s - 16)).
Proof.
  split; [reflexivity|]. split.
  - intros Hlen. unfold pcap.read, pcap.stream_read.
    cbn [pcap.stream pcap._endian].
    assert (slice_to s 16 = s) as ->
      by (unfold slice_to; apply firstn_all2; unfold len in Hlen; lia).
    destruct s as [|b s]; [unfold len in Hlen; simpl in Hlen; lia|].
    destruct (pcap.unpack_IIII e (b :: s)) as [r|x] eqn:E.
    + apply unpack_IIII_Ok in E. unfold len in Hlen. lia.
    + rewrite (unpack_IIII_raises _ _ _ E). reflexivity.
  - intros Hlen.
    assert (length (slice_to s 16) = 16%nat) as H16
      by (unfold slice_to; rewrite length_firstn; unfold len in Hlen; lia).
    destruct (unpack_IIII_total e _ H16)
      as (sec & usec & caplen & length & Hun & Hcap).
    exists sec, usec, caplen, length.
    split; [exact Hun|]. split; [exact Hcap|]. split.
    + unfold pcap.read, pcap.stream_read. cbn [pcap.stream pcap._endian].
      rewrite Hun.
      destruct (slice_to s 16); [discriminate H16|reflexivity].
    + unfold len, slice_to, slice_from.
      rewrite length_firstn, length_skipn. unfold len in Hlen. lia.
Qed.

Lemma read_outcomes_witness :
  0 < len [x01; x02; x03] < 16 /\
  16 <= len sample_capture /\
  pcap.read (pcap.mk pcap.little [x01; x02; x03]) = Raise StructError /\
  exists sec usec caplen length,
    pcap.read (pcap.mk pcap.little sample_capture) =
    Ok (Some ((sec, usec, length),
              slice_to (slice_from sample_capture 16) caplen),
        pcap.mk pcap.little
          (slice_from (slice_from sample_capture 16) caplen)).
Proof.
  assert (0 < len [x01; x02; x03] < 16) as H1 by (unfold len; simpl; lia).
  assert (16 <= len sample_capture) as H2 by (unfold len; simpl; lia).
  split; [exact H1|]. split; [exact H2|]. split.
  - exact (proj1 (proj2 (read_outcomes pcap.little [x01; x02; x03])) H1).
  - destruct (proj2 (proj2 (read_outcomes pcap.little sample_capture)) H2)
      as (sec & usec & caplen & length & _ & _ & Hread & _).
    exists sec, usec, caplen, length. exact Hread.
Defined.

Lemma read_consumes (e : pcap.endian) (s : bytes) (r : packet) (self' : pcap.t) :
  pcap.read (pcap.mk e s) = Ok (Some r, self') ->
  pcap._endian self' = e /\
  (length (pcap.stream self') + 16 <= length s)%nat.
Proof.
  unfold pcap.read, pcap.stream_read. cbn [pcap.stream pcap._endian].
  destruct (slice_to s 16) as [|b hdr] eqn:Hhdr; [discriminate|].
  destruct (pcap.unpack_IIII e (b :: hdr)) as [[[[sec usec] caplen] length]|]
    eqn:Hun; [|discriminate].
  intros H. injection H as _ <-. cbn [pcap.stream pcap._endian].
  split; [reflexivity|].
  apply unpack_IIII_Ok in Hun. rewrite <- Hhdr in Hun.
  unfold slice_to, slice_from in *.
  rewrite length_firstn in Hun. rewrite !length_skipn. lia.
Qed.

(** X17.  [__iter__] ends on every stream: after at most one call of
    [read] more than the stream has whole blocks of sixteen bytes it has
    stopped at the end of the stream or raised, and whichever way it ends
    it has yielded at most as many records as there are such blocks. *)
Theorem iter_ends (e : pcap.endian) (fuel : nat) (s : bytes) :
  (length s / 16 < fuel)%nat ->
  exists records ending,
    pcap.iter fuel (pcap.mk e s) = Some (records, ending) /\
    (length records <= length s / 16)%nat.
Proof.
  revert s. induction fuel as [|fuel IH]; intros s Hfuel; [lia|].
  cbn [pcap.iter].
  destruct (pcap.read (pcap.mk e s)) as [[[p|] self']|x] eqn:Hread.
  - destruct (read_consumes e s p self' Hread) as (He & Hlen).
    destruct self' as [e' s']. cbn [pcap._endian pcap.stream] in He, Hlen.
    subst e'.
    assert (length s' / 16 + 1 <= length s / 16)%nat as Hdiv.
    { rewrite <- (Nat.div_add (length s') 1 16) by lia.
      apply Nat.Div0.div_le_mono; lia. }
    destruct (IH s') as (records & ending & Hr & Hbound); [lia|].
    rewrite Hr. exists (p :: records), ending.
    split; [reflexivity|]. cbn [length]. lia.
  - exists [], None. split; [reflexivity|]. cbn [length]. lia.
  - exists [], (Some x). split; [reflexivity|]. cbn [length]. lia.
Qed.

Lemma iter_ends_witness :
  (length (sample_capture ++ [x01; x02; x03]) / 16 < 4)%nat /\
  exists records,
    pcap.iter 4 (pcap.mk pcap.little (sample_capture ++ [x01; x02; x03])) =
      Some (records, Some StructError) /\
    (length records <= length (sample_capture ++ [x01; x02; x03]) / 16)%nat.
Proof.
  assert (length (sample_capture ++ [x01; x02; x03]) / 16 < 4)%nat as H
    by (vm_compute; lia).
  split; [exact H|].
  destruct (iter_ends pcap.little 4 (sample_capture ++ [x01; x02; x03]) H)
    as (records & ending & Hr & Hbound).
  exists records. split; [|exact Hbound].
  rewrite Hr. f_equal. f_equal.
  vm_compute in Hr. injection Hr as _ <-. reflexivity.
Defined.

(** X18.  The file header of write mode is 24 bytes: the magic
    0xA1B2C3D4, the version 2.4, two zero fields, the snap length and the
    link type, each in the machine's byte order; read in that order its
    first four bytes are the magic and read in the other order they are
    not, which is what tells a reader the byte order of the file.  When the
    snap length or the link type is not in [[0, 2**32)] packing the header
    raises [struct.error]. *)
Theorem write_mode_header_layout
    (native : pcap.endian) (snaplen linktype : Z) :
  (0 <= snaplen < 2 ^ 32 /\ 0 <= linktype < 2 ^ 32 ->
   exists m0 m1 m2 m3 sn lt,
     pcap.pack_I native snaplen = Ok sn /\
     pcap.pack_I native linktype = Ok lt /\
     pcap.write_mode_header native snaplen linktype =
       Ok ([m0; m1; m2; m3] ++
           match native with
           | pcap.little => [x02; x00; x04; x00]
           | pcap.big => [x00; x02; x00; x04]
           end ++
           [x00; x00; x00; x00; x00; x00; x00; x00] ++ sn ++ lt) /\
     len ([m0; m1; m2; m3] ++
          match native with
          | pcap.little => [x02; x00; x04; x00]
          | pcap.big => [x00; x02; x00; x04]
          end ++
          [x00; x00; x00; x00; x00; x00; x00; x00] ++ sn ++ lt) = 24 /\
     pcap.unpack_I native m0 m1 m2 m3 = pcap._MAGIC /\
     pcap.unpack_I (pcap.other native) m0 m1 m2 m3 <> pcap._MAGIC) /\
  (~ (0 <= snaplen < 2 ^ 32 /\ 0 <= linktype < 2 ^ 32) ->
   pcap.write_mode_header native snaplen linktype = Raise StructError).
Proof.
  split.
  - intros (Hs & Hl).
    destruct (unpack_pack_I native snaplen Hs) as (s0 & s1 & s2 & s3 & Hsn & _).
    destruct (unpack_pack_I native linktype Hl) as (l0 & l1 & l2 & l3 & Hlt & _).
    unfold pcap.write_mode_header, pcap.pack_IHHIIII. cbv zeta.
    rewrite Hsn, Hlt.
    destruct native.
    + exists xd4, xc3, xb2, xa1. do 2 eexists.
      split; [reflexivity|]. split; [reflexivity|].
      split; [reflexivity|]. split; [reflexivity|].
      split; [reflexivity|]. vm_compute. discriminate.
    + exists xa1, xb2, xc3, xd4. do 2 eexists.
      split; [reflexivity|]. split; [reflexivity|].
      split; [reflexivity|]. split; [reflexivity|].
      split; [reflexivity|]. vm_compute. discriminate.
  - intros Hno. unfold pcap.write_mode_header, pcap.pack_IHHIIII. cbv zeta.
    assert (exists m, pcap.pack_I native pcap._MAGIC = Ok m) as (m & ->)
      by (destruct native; eexists; reflexivity).
    assert (exists v, pcap.pack_H native 2 = Ok v) as (v & ->)
      by (destruct native; eexists; reflexivity).
    assert (exists v, pcap.pack_H native 4 = Ok v) as (v' & ->)
      by (destruct native; eexists; reflexivity).
    assert (exists z, pcap.pack_I native 0 = Ok z) as (z & ->)
      by (destruct native; eexists; reflexivity).
    destruct (Z_lt_le_dec snaplen 0) as [H|H];
      [rewrite (pack_I_raises _ snaplen) by lia; reflexivity|].
    destruct (Z_lt_le_dec snaplen (2 ^ 32)) as [H1|H1];
      [|rewrite (pack_I_raises _ snaplen) by lia; reflexivity].
    destruct (pcap.pack_I native snaplen); [|reflexivity].
    rewrite (pack_I_raises _ linktype) by lia. reflexivity.
Qed.

Lemma write_mode_header_layout_witness :
  (0 <= 65535 < 2 ^ 32 /\ 0 <= 147 < 2 ^ 32) /\
  ~ (0 <= 65535 < 2 ^ 32 /\ 0 <= -1 < 2 ^ 32) /\
  (exists m0 m1 m2 m3 sn lt,
     pcap.write_mode_header pcap.little 65535 147 =
       Ok ([m0; m1; m2; m3] ++ [x02; x00; x04; x00] ++
           [x00; x00; x00; x00; x00; x00; x00; x00] ++ sn ++ lt)) /\
  pcap.write_mode_header pcap.little 65535 (-1) = Raise StructError.
Proof.
  assert (0 <= 65535 < 2 ^ 32 /\ 0 <= 147 < 2 ^ 32) as H1 by lia.
  assert (~ (0 <= 65535 < 2 ^ 32 /\ 0 <= -1 < 2 ^ 32)) as H2 by lia.
  split; [exact H1|]. split; [exact H2|]. split.
  - destruct (proj1 (write_mode_header_layout pcap.little 65535 147) H1)
      as (m0 & m1 & m2 & m3 & sn & lt & _ & _ & Hh & _).
    exists m0, m1, m2, m3, sn, lt. exact Hh.
  - exact (proj2 (write_mode_header_layout pcap.little 65535 (-1)) H2).
Defined.

(** ** Frame records *)


(** ** A frame that is the last bytes of the input *)





